(** * Vector store lifecycle: ingestion ledger, batched insert, delete, snapshot

    A shallow embedding of
      - src/loaders/document_loader.py   (DocumentLoaderService)
      - src/vectorstores/faiss_store.py  (FAISSVectorStore)
      - src/chains/faiss_conversational_chain.py (add_documents)
    Python methods become functions in a state-and-exception monad over a
    [World] that holds the ledger file, the in-memory index, the snapshot
    directory and a log of the calls made to external libraries. *)

From Stdlib Require Import ZArith Lia List String Ascii Bool.
From stdpp Require Import gmap strings.
Import ListNotations.

(* ===================================================================== *)
(** ** Python text helpers *)
(* ===================================================================== *)

Module PyStr.

(** Strings are UTF-8 byte sequences.  The one-byte line boundaries of
    [str.splitlines]: \n \v \f \r and the separators \x1c \x1d \x1e. *)
Definition is_line_break_byte (c : ascii) : bool :=
  let n := nat_of_ascii c in
  ((10 <=? n) && (n <=? 13)) || ((28 <=? n) && (n <=? 30)).

(** Number of bytes of the line boundary that starts at the head of [s],
    0 when none does.  Besides the one-byte boundaries these are \r\n,
    U+0085 (C2 85), U+2028 (E2 80 A8) and U+2029 (E2 80 A9). *)
Definition line_break_width (s : string) : nat :=
  match s with
  | EmptyString => 0
  | String c rest =>
      if Ascii.eqb c "013" then
        match rest with
        | String d _ => if Ascii.eqb d "010" then 2 else 1
        | EmptyString => 1
        end
      else if is_line_break_byte c then 1
      else if Ascii.eqb c "194" then
        match rest with
        | String d _ => if Ascii.eqb d "133" then 2 else 0
        | EmptyString => 0
        end
      else if Ascii.eqb c "226" then
        match rest with
        | String d (String e _) =>
            if Ascii.eqb d "128" && (Ascii.eqb e "168" || Ascii.eqb e "169")
            then 3 else 0
        | _ => 0
        end
      else 0
  end.

(** [s.splitlines()], scanning left to right: [skip] counts the bytes of
    the current boundary still to be passed over, [cur] is the line read
    so far.  A last line without terminator is kept when it is not
    empty. *)
Fixpoint splitlines_from (skip : nat) (cur : string) (s : string) : list string :=
  match s with
  | EmptyString => if String.eqb cur "" then [] else [cur]
  | String c rest =>
      match skip with
      | S k => splitlines_from k cur rest
      | O =>
          match line_break_width s with
          | O => splitlines_from 0 (cur +:+ String c "") rest
          | S k => cur :: splitlines_from k "" rest
          end
      end
  end.

Definition splitlines (s : string) : list string := splitlines_from 0 "" s.

(** No line boundary starts anywhere inside [s]. *)
Fixpoint no_line_break (s : string) : bool :=
  match s with
  | EmptyString => true
  | String _ rest => (line_break_width s =? 0) && no_line_break rest
  end.

(** The text is empty or its last byte is \n. *)
Fixpoint newline_terminated (s : string) : bool :=
  match s with
  | EmptyString => true
  | String c EmptyString => Ascii.eqb c "010"
  | String _ rest => newline_terminated rest
  end.

(** [x in l] on a list of strings. *)
Definition str_in (x : string) (l : list string) : bool :=
  existsb (String.eqb x) l.

(** [s.startswith(p)]. *)
Definition startswith (s p : string) : bool := String.prefix p s.

(** [l[i:j]] for 0 <= i <= j. *)
Definition slice {A} (l : list A) (i j : nat) : list A :=
  firstn (j - i) (skipn i l).

(** [range(0, stop, step)]: the step 0 is a ValueError ([None]); a
    negative step from 0 up to a non-negative stop is empty. *)
Definition range0 (stop : nat) (step : Z) : option (list nat) :=
  if (step =? 0)%Z then None
  else if (step <? 0)%Z then Some []
  else
    let s := Z.to_nat step in
    Some (map (fun k => k * s) (seq 0 ((stop + s - 1) / s))).

End PyStr.

(* ===================================================================== *)
(** ** Data model *)
(* ===================================================================== *)

(** langchain's [Document]: text and a metadata dict (values rendered as
    text). *)
Record Document := mkDocument {
  page_content : string;
  metadata : gmap string string
}.

(** The in-memory FAISS store: the docstore ids in position order
    ([index_to_docstore_id]) with the document each one maps to. *)
Definition Index := list (string * Document).

Definition index_ids (i : Index) : list string := map fst i.

(** Contents of the snapshot directory FAISS_INDEX_PATH. *)
Inductive SnapshotDir :=
| DirMissing
| DirEmpty
| DirSaved (idx : Index)
| DirCorrupt.

Inductive LoaderClass := PyPDFLoader | Docx2txtLoader | TextLoader.

(** Calls that leave the repository, in the order they are made. *)
Inductive Event :=
| EvUploadWrite (path : string)
| EvLoaderLoad (cls : LoaderClass) (path : string)
| EvFromTexts (texts : list string)
| EvFromDocuments (batch : list Document) (ids : list string)
| EvEngineAdd (batch : list Document) (ids : list string)
| EvEngineDelete (ids : list string)
| EvSaveLocal (idx : Index)
| EvLoadLocal.

Inductive ExternalOp :=
| OpLoaderLoad | OpFromTexts | OpFromDocuments | OpEngineAdd
| OpEngineDelete | OpSaveLocal | OpLoadLocal.

Inductive Exn :=
| UnsupportedFileType (suffix : string)   (* ValueError, load_document *)
| CountMismatch (ndocs nids : nat)        (* ValueError, add_documents *)
| NoUploadFile                            (* ValueError, save_uploaded_file *)
| RangeStepZero                           (* ValueError, range(0, n, 0) *)
| AttributeError                          (* method call on None *)
| ExternalFailure (op : ExternalOp).      (* raised inside a library call *)

(** What the program cannot decide: path arithmetic, file parsing, text
    splitting, random UUIDs, and when a call into the similarity-search
    engine raises.  A fault oracle answers [Some s] when the call raises,
    [s] being the state the engine leaves behind. *)
Record Env := mkEnv {
  DOCUMENTS_DIR : string;
  path_suffix_lower : string -> string;     (* Path(p).suffix.lower() *)
  path_name : string -> string;             (* Path(p).name *)
  loader_load : LoaderClass -> string -> option (list Document);
  split_documents : list Document -> list Document;
  uuid4 : nat -> string;                    (* str(uuid.uuid4()), k-th draw *)
  create_fault : list string -> bool;       (* embedding the texts raises *)
  add_fault : Index -> list Document -> list string -> option Index;
  delete_fault : Index -> list string -> option Index;
  save_fault : Index -> SnapshotDir -> option SnapshotDir
}.

Record World := mkWorld {
  ledger_file : option string;      (* PROCESSED_DOCS_RECORD, None: no file *)
  vector_store : option Index;      (* self.vector_store, None: Python None *)
  snapshot_dir : SnapshotDir;       (* FAISS_INDEX_PATH *)
  uuid_calls : nat;                 (* draws of uuid4 made so far *)
  trace : list Event
}.

Definition set_ledger_file (l : option string) (w : World) : World :=
  mkWorld l (vector_store w) (snapshot_dir w) (uuid_calls w) (trace w).
Definition set_vector_store (v : option Index) (w : World) : World :=
  mkWorld (ledger_file w) v (snapshot_dir w) (uuid_calls w) (trace w).
Definition set_snapshot_dir (d : SnapshotDir) (w : World) : World :=
  mkWorld (ledger_file w) (vector_store w) d (uuid_calls w) (trace w).
Definition set_uuid_calls (n : nat) (w : World) : World :=
  mkWorld (ledger_file w) (vector_store w) (snapshot_dir w) n (trace w).
Definition log (e : Event) (w : World) : World :=
  mkWorld (ledger_file w) (vector_store w) (snapshot_dir w) (uuid_calls w)
          (trace w ++ [e]).

(* ===================================================================== *)
(** ** State and exceptions *)
(* ===================================================================== *)

Inductive Res (A : Type) :=
| Ret (a : A)
| Raise (e : Exn).
Arguments Ret {A} a.
Arguments Raise {A} e.

(** A Python call: it ends with a value or an exception, and in both cases
    leaves the world as mutated so far. *)
Definition M (A : Type) : Type := World -> Res A * World.

Definition ret {A} (a : A) : M A := fun w => (Ret a, w).
Definition raise {A} (e : Exn) : M A := fun w => (Raise e, w).
Definition bind {A B} (m : M A) (k : A -> M B) : M B :=
  fun w => match m w with
           | (Ret a, w') => k a w'
           | (Raise e, w') => (Raise e, w')
           end.
(** [try: m except Exception: h]. *)
Definition try_except {A} (m : M A) (h : Exn -> M A) : M A :=
  fun w => match m w with
           | (Ret a, w') => (Ret a, w')
           | (Raise e, w') => h e w'
           end.
Definition get : M World := fun w => (Ret w, w).
Definition modify (f : World -> World) : M unit := fun w => (Ret tt, f w).

Notation "x <- m ;; k" := (bind m (fun x => k))
  (at level 100, m at next level, right associativity).
Notation "m ;;; k" := (bind m (fun _ => k))
  (at level 100, right associativity).

(** [for x in xs: body x]. *)
Fixpoint for_each {A} (xs : list A) (body : A -> M unit) : M unit :=
  match xs with
  | [] => ret tt
  | x :: xs' => body x ;;; for_each xs' body
  end.

(* ===================================================================== *)
(** ** The similarity-search engine (langchain FAISS) *)
(* ===================================================================== *)

Module Engine.
Section WithEnv.
Context (env : Env).

(** Modelled from the spec: the engine is an external capability
    "providing nearest-neighbor query, additive insert, id-based delete,
    and whole-structure save/load to a directory".  A successful additive
    insert appends the batch under the given ids. *)
Definition added (i : Index) (batch : list Document) (ids : list string) : Index :=
  i ++ combine ids batch.

(** Modelled from the spec: a successful id-based delete drops the
    entries whose id is listed. *)
Definition removed (i : Index) (ids : list string) : Index :=
  List.filter (fun e => negb (PyStr.str_in (fst e) ids)) i.

(** [vs.add_documents(documents=batch, ids=batch_ids)] on the store [i]. *)
Definition add_documents (i : Index) (batch : list Document) (ids : list string) : M unit :=
  modify (log (EvEngineAdd batch ids)) ;;;
  match add_fault env i batch ids with
  | Some rest => modify (set_vector_store (Some rest)) ;;; raise (ExternalFailure OpEngineAdd)
  | None => modify (set_vector_store (Some (added i batch ids)))
  end.

(** [FAISS.from_documents(batch, embeddings, ids=batch_ids)]. *)
Definition from_documents (batch : list Document) (ids : list string) : M Index :=
  modify (log (EvFromDocuments batch ids)) ;;;
  if create_fault env (map page_content batch)
  then raise (ExternalFailure OpFromDocuments)
  else ret (added [] batch ids).

(** [FAISS.from_texts(texts, embeddings)]: one entry per text, each under
    a UUID of the engine's own making, with empty metadata. *)
Definition from_texts (texts : list string) : M Index :=
  modify (log (EvFromTexts texts)) ;;;
  if create_fault env texts
  then raise (ExternalFailure OpFromTexts)
  else
    w <- get ;;
    let n := uuid_calls w in
    modify (set_uuid_calls (n + length texts)) ;;;
    ret (combine (map (uuid4 env) (seq n (length texts)))
                 (map (fun t => mkDocument t ∅) texts)).

(** [vs.delete(ids=ids)] on the store [i]. *)
Definition delete (i : Index) (ids : list string) : M unit :=
  modify (log (EvEngineDelete ids)) ;;;
  match delete_fault env i ids with
  | Some rest => modify (set_vector_store (Some rest)) ;;; raise (ExternalFailure OpEngineDelete)
  | None => modify (set_vector_store (Some (removed i ids)))
  end.

(** [i.save_local(str(FAISS_INDEX_PATH))]: a whole-structure write. *)
Definition save_local (i : Index) : M unit :=
  modify (log (EvSaveLocal i)) ;;;
  w <- get ;;
  match save_fault env i (snapshot_dir w) with
  | Some rest => modify (set_snapshot_dir rest) ;;; raise (ExternalFailure OpSaveLocal)
  | None => modify (set_snapshot_dir (DirSaved i))
  end.

(** [FAISS.load_local(folder_path=str(FAISS_INDEX_PATH), ...)]. *)
Definition load_local : M Index :=
  modify (log EvLoadLocal) ;;;
  w <- get ;;
  match snapshot_dir w with
  | DirSaved i => ret i
  | _ => raise (ExternalFailure OpLoadLocal)
  end.

End WithEnv.
End Engine.

(* ===================================================================== *)
(** ** src/loaders/document_loader.py *)
(* ===================================================================== *)

(** A Streamlit upload: the declared name and the bytes. *)
Record UploadedFile := mkUploadedFile {
  upload_name : string;
  upload_buffer : string
}.

(** One path yielded by [directory.rglob("*")], with [is_file()]. *)
Record DirEntry := mkDirEntry {
  entry_path : string;
  entry_is_file : bool
}.

Module DocumentLoaderService.

Definition SUPPORTED_LOADERS : gmap string LoaderClass :=
  list_to_map
    [(".pdf", PyPDFLoader); (".docx", Docx2txtLoader); (".doc", Docx2txtLoader);
     (".txt", TextLoader); (".html", TextLoader); (".htm", TextLoader);
     (".md", TextLoader)].

Section WithEnv.
Context (env : Env).

(** [doc.metadata.update({"source": ..., "file_name": ..., "file_type": ...})]. *)
Definition stamp_metadata (file_path suffix : string) (doc : Document) : Document :=
  mkDocument (page_content doc)
    (<["file_type" := suffix]>
       (<["file_name" := path_name env file_path]>
          (<["source" := file_path]> (metadata doc)))).

Definition load_document (file_path : string) : M (list Document) :=
  let suffix := path_suffix_lower env file_path in
  match SUPPORTED_LOADERS !! suffix with
  | None => raise (UnsupportedFileType suffix)
  | Some loader_class =>
      modify (log (EvLoaderLoad loader_class file_path)) ;;;
      match loader_load env loader_class file_path with
      | None => raise (ExternalFailure OpLoaderLoad)
      | Some documents =>
          let documents := map (stamp_metadata file_path suffix) documents in
          ret (split_documents env documents)
      end
  end.

(** The ledger file is read whole and cut into lines. *)
Definition _is_document_processed (doc_id : string) : M bool :=
  w <- get ;;
  match ledger_file w with
  | None => ret false
  | Some content => ret (PyStr.str_in doc_id (PyStr.splitlines content))
  end.

(** Append mode: the file is created when missing. *)
Definition _record_processed_document (doc_id : string) : M unit :=
  modify (fun w =>
    set_ledger_file (Some (default "" (ledger_file w) +:+ doc_id +:+ String "010" "")) w).

Definition _process_file (file_path : string) (skip_processed : bool) : M (list Document) :=
  let doc_id := file_path in
  skip <- (if skip_processed then _is_document_processed doc_id else ret false) ;;
  if skip : bool then ret []
  else
    try_except
      (chunks <- load_document file_path ;;
       _record_processed_document doc_id ;;;
       ret chunks)
      (fun _ => ret []).

Definition batch_process_documents (documents : list Document) (batch_size : Z)
  : M (list (list Document)) :=
  match PyStr.range0 (length documents) batch_size with
  | None => raise RangeStepZero
  | Some starts =>
      ret (map (fun i => PyStr.slice documents i (i + Z.to_nat batch_size)) starts)
  end.

(** The target is [Config.DOCUMENTS_DIR / uploaded_file.name]; the bytes
    written are not tracked, [loader_load] answers for the path. *)
Definition save_uploaded_file (uploaded_file : option UploadedFile) : M string :=
  match uploaded_file with
  | None => raise NoUploadFile
  | Some f =>
      let file_path := DOCUMENTS_DIR env +:+ "/" +:+ upload_name f in
      modify (log (EvUploadWrite file_path)) ;;;
      ret file_path
  end.

(** [file_path.suffix.lower() in self.SUPPORTED_LOADERS]. *)
Definition has_supported_suffix (file_path : string) : bool :=
  match SUPPORTED_LOADERS !! path_suffix_lower env file_path with
  | Some _ => true
  | None => false
  end.

(** Lines 101-104: the loop of [_process_directory] over what [rglob]
    yields, [all_chunks] being extended file by file. *)
Fixpoint process_entries (listing : list DirEntry) (skip_processed : bool)
    (all_chunks : list Document) : M (list Document) :=
  match listing with
  | [] => ret all_chunks
  | e :: rest =>
      if entry_is_file e && has_supported_suffix (entry_path e) then
        file_chunks <- _process_file (entry_path e) skip_processed ;;
        process_entries rest skip_processed (all_chunks ++ file_chunks)
      else process_entries rest skip_processed all_chunks
  end.

(** The directory is given by its recursive listing. *)
Definition _process_directory (listing : list DirEntry) (skip_processed : bool)
  : M (list Document) :=
  process_entries listing skip_processed [].

End WithEnv.
End DocumentLoaderService.

(* ===================================================================== *)
(** ** src/vectorstores/faiss_store.py *)
(* ===================================================================== *)

Module FAISSVectorStore.

(** The text of the placeholder entry of a new store. *)
Definition PLACEHOLDER_TEXT : string := "初始化文档".

Section WithEnv.
Context (env : Env).

Definition dir_has_entries (d : SnapshotDir) : bool :=
  match d with
  | DirSaved _ | DirCorrupt => true
  | DirMissing | DirEmpty => false
  end.

(** Lines 62-68: the store made when nothing was loaded. *)
Definition create_placeholder_store : M Index :=
  vs <- Engine.from_texts env [PLACEHOLDER_TEXT] ;;
  Engine.save_local env vs ;;;
  ret vs.

Definition _load_or_create_vector_store : M Index :=
  w <- get ;;
  loaded <-
    (if dir_has_entries (snapshot_dir w)
     then try_except (vs <- Engine.load_local ;; ret (Some vs)) (fun _ => ret None)
     else ret None) ;;
  match loaded with
  | Some vs => ret vs
  | None => create_placeholder_store
  end.

Definition __init__ : M unit :=
  vs <- _load_or_create_vector_store ;;
  modify (set_vector_store (Some vs)).

Definition draw_uuid4 : M string :=
  fun w => (Ret (uuid4 env (uuid_calls w)), set_uuid_calls (S (uuid_calls w)) w).

(** Lines 102-106: one id per document, [f"{source}_{doc_uuid}"]. *)
Fixpoint generate_ids (documents : list Document) : M (list string) :=
  match documents with
  | [] => ret []
  | doc :: rest =>
      let source := default "" (metadata doc !! "source") in
      doc_uuid <- draw_uuid4 ;;
      generated_ids <- generate_ids rest ;;
      ret ((source +:+ "_" +:+ doc_uuid) :: generated_ids)
  end.

(** Lines 121-125: one turn of the loop over the batches. *)
Definition insert_batch (b : list Document * list string) : M unit :=
  let '(batch, batch_ids) := b in
  w <- get ;;
  match vector_store w with
  | None =>
      vs <- Engine.from_documents env batch batch_ids ;;
      modify (set_vector_store (Some vs))
  | Some vs => Engine.add_documents env vs batch batch_ids
  end.

Definition add_documents (documents : list Document) (batch_size : Z)
    (ids : option (list string)) : M bool :=
  match documents with
  | [] => ret false
  | _ :: _ =>
      ids <- match ids with
             | None => generate_ids documents
             | Some ids => ret ids
             end ;;
      if negb (length documents =? length ids) then
        raise (CountMismatch (length documents) (length ids))
      else
        batches <- DocumentLoaderService.batch_process_documents documents batch_size ;;
        id_batches <-
          match PyStr.range0 (length ids) batch_size with
          | None => raise RangeStepZero
          | Some starts =>
              ret (map (fun i => PyStr.slice ids i (i + Z.to_nat batch_size)) starts)
          end ;;
        for_each (combine batches id_batches) insert_batch ;;;
        w <- get ;;
        match vector_store w with
        | Some vs => Engine.save_local env vs ;;; ret true
        | None => ret false
        end
  end.

Definition save : M unit :=
  w <- get ;;
  match vector_store w with
  | None => raise AttributeError
  | Some vs => Engine.save_local env vs
  end.

(** [self.vector_store.delete(ids=ids)]. *)
Definition vector_store_delete (ids : list string) : M unit :=
  w <- get ;;
  match vector_store w with
  | None => raise AttributeError
  | Some vs => Engine.delete env vs ids
  end.

Definition delete (ids : list string) : M bool :=
  match ids with
  | [] => ret false
  | _ :: _ =>
      try_except
        (vector_store_delete ids ;;;
         save ;;;
         ret true)
        (fun _ => ret false)
  end.

(** Lines 245-250: for each source path, the stored ids that start with
    [f"{source_path}_"], in store order. *)
Definition matching_ids (all_ids source_paths : list string) : list string :=
  flat_map
    (fun source_path =>
       List.filter (fun doc_id => PyStr.startswith doc_id (source_path +:+ "_")) all_ids)
    source_paths.

Definition delete_by_source (source_paths : list string) : M bool :=
  match source_paths with
  | [] => ret false
  | _ :: _ =>
      try_except
        (w <- get ;;
         match vector_store w with
         | None => raise AttributeError
         | Some vs =>
             let all_ids := index_ids vs in
             let ids_to_delete := matching_ids all_ids source_paths in
             match ids_to_delete with
             | [] => ret false
             | _ :: _ =>
                 vector_store_delete ids_to_delete ;;;
                 save ;;;
                 ret true
             end
         end)
        (fun _ => ret false)
  end.

Definition clear : M unit :=
  vs <- Engine.from_texts env [PLACEHOLDER_TEXT] ;;
  modify (set_vector_store (Some vs)) ;;;
  save.

End WithEnv.
End FAISSVectorStore.

(* ===================================================================== *)
(** ** src/chains/faiss_conversational_chain.py *)
(* ===================================================================== *)

Module FAISSConversationalRAGChain.
Section WithEnv.
Context (env : Env).

(** [add_documents(self, file_path)]; the store's [batch_size] is left at
    its default 10 and no ids are passed. *)
Definition add_documents (uploaded_file : option UploadedFile) : M unit :=
  file_path <- DocumentLoaderService.save_uploaded_file env uploaded_file ;;
  chunks <- DocumentLoaderService._process_file env file_path true ;;
  match chunks with
  | [] => ret tt
  | _ :: _ =>
      FAISSVectorStore.add_documents env chunks 10 None ;;;
      ret tt
  end.

End WithEnv.

(** An entry of [self.history], and a message handed to the agent. *)
Record Msg := mkMsg {
  role : string;
  content : string
}.

(** The content of an AI message: text, or a list of parts of which each
    is [Some t] when it is a dict with a "text" key. *)
Inductive Content :=
| CText (text : string)
| CParts (parts : list (option string)).

Inductive AgentMessage :=
| AIMessage (c : Content)
| OtherMessage.

(** What [agent.invoke] returns: a dict with "messages", or anything
    else, of which [result.get("answer", str(result))] is kept. *)
Inductive AgentResult :=
| WithMessages (messages : list AgentMessage)
| WithoutMessages (answer : string).


Record ChainState := mkChainState {
  history : list Msg;
  last_docs : list Document
}.



(** [" ".join(parts)]. *)
Fixpoint join_space (parts : list string) : string :=
  match parts with
  | [] => ""
  | [x] => x
  | x :: rest => x +:+ " " +:+ join_space rest
  end.



Definition last_ai_content (messages : list AgentMessage) : option Content :=
  List.last (map Some (flat_map (fun m => match m with
                                          | AIMessage c => [c]
                                          | OtherMessage => []
                                          end) messages)) None.

(** Lines 132-148. *)
Definition extract_answer (result : AgentResult) : string :=
  match result with
  | WithMessages messages =>
      match last_ai_content messages with
      | Some (CText t) => t
      | Some (CParts parts) =>
          join_space (flat_map (fun p => match p with Some t => [t] | None => [] end) parts)
      | None => "Unable to generate an answer."
      end
  | WithoutMessages a => a
  end.



Definition clear_memory (c : ChainState) : ChainState :=
  mkChainState [] (last_docs c).

End FAISSConversationalRAGChain.

(* ===================================================================== *)
(** ** src/app/web_chatbot.py *)
(* ===================================================================== *)

Module WebChatbot.
Section WithEnv.
Context (env : Env).


End WithEnv.
End WebChatbot.

(* ===================================================================== *)
(** ** Vocabulary of the properties *)
(* ===================================================================== *)

(** The ledger's answer for [p] in the world [w]. *)
Definition is_recorded (w : World) (p : string) : bool :=
  match ledger_file w with
  | None => false
  | Some content => PyStr.str_in p (PyStr.splitlines content)
  end.

(** Every write so far left the ledger file ending in a newline. *)
Definition ledger_wf (w : World) : bool :=
  match ledger_file w with
  | None => true
  | Some content => PyStr.newline_terminated content
  end.

(** The events logged between [w] and a later world [w']. *)
Definition new_events (w w' : World) : list Event :=
  skipn (length (trace w)) (trace w').

Definition is_save_event (e : Event) : bool :=
  match e with EvSaveLocal _ => true | _ => false end.


(** Some listed source path, followed by an underscore, starts [doc_id]. *)
Definition id_of_sources (source_paths : list string) (doc_id : string) : bool :=
  existsb (fun source_path => PyStr.startswith doc_id (source_path +:+ "_")) source_paths.

(** Canonical UUID text: 36 characters, hyphens at 8, 13, 18 and 23,
    lower-case hexadecimal digits elsewhere. *)
Definition is_hex_digit (c : ascii) : bool :=
  let n := nat_of_ascii c in
  ((48 <=? n) && (n <=? 57)) || ((97 <=? n) && (n <=? 102)).

Fixpoint uuid_shape (pos : nat) (s : string) : bool :=
  match s with
  | EmptyString => pos =? 36
  | String c rest =>
      (if (pos =? 8) || (pos =? 13) || (pos =? 18) || (pos =? 23)
       then Ascii.eqb c "-" else is_hex_digit c)
      && uuid_shape (S pos) rest
  end.

Definition is_uuid_text (s : string) : bool := uuid_shape 0 s.

(** The call [m] leaves the component [f] of the world as it found it,
    whether it returns or raises. *)
Definition keeps {X A} (f : World -> X) (m : M A) : Prop :=
  forall w, f (snd (m w)) = f w.

(** The consecutive windows of width [s] over [l]: [l[0:s]], [l[s:2s]],
    and so on, as many as cover [l]. *)
Definition windows {A} (s : nat) (l : list A) : list (list A) :=
  map (fun k => firstn s (skipn (k * s) l)) (seq 0 ((length l + s - 1) / s)).

(** The engine call that inserts the batch [b]. *)
Definition add_event (b : list Document * list string) : Event :=
  EvEngineAdd (fst b) (snd b).

(** The ids an insert works with: the caller's, or the generated ones. *)
Definition ids_used (env : Env) (documents : list Document)
    (ids : option (list string)) (w : World) : list string :=
  match ids with
  | Some ids => ids
  | None =>
      map (fun '(doc, k) =>
             default "" (metadata doc !! "source") +:+ "_" +:+ uuid4 env k)
          (combine documents (seq (uuid_calls w) (length documents)))
  end.

(** [load_document] would return for this path: its suffix is supported
    and the library loader does not raise. *)
Definition loads (env : Env) (p : string) : bool :=
  match DocumentLoaderService.SUPPORTED_LOADERS !! path_suffix_lower env p with
  | None => false
  | Some cls =>
      match loader_load env cls p with
      | Some _ => true
      | None => false
      end
  end.

Definition is_engine_event (e : Event) : bool :=
  match e with
  | EvFromTexts _ | EvFromDocuments _ _ | EvEngineAdd _ _
  | EvEngineDelete _ | EvSaveLocal _ | EvLoadLocal => true
  | EvUploadWrite _ | EvLoaderLoad _ _ => false
  end.

Definition is_add_event (e : Event) : bool :=
  match e with
  | EvEngineAdd _ _ | EvFromDocuments _ _ => true
  | _ => false
  end.

(** The id given to [doc] when its UUID is [u]. *)
Definition id_for (doc : Document) (u : string) : string :=
  default "" (metadata doc !! "source") +:+ "_" +:+ u.

Section Insertion.
Context (env : Env).

(** Every batch of [bl], inserted in order into a store that starts as
    [i], is accepted by the engine. *)
Fixpoint inserts_ok (i : Index) (bl : list (list Document * list string)) : bool :=
  match bl with
  | [] => true
  | (batch, batch_ids) :: rest =>
      match add_fault env i batch batch_ids with
      | Some _ => false
      | None => inserts_ok (Engine.added i batch batch_ids) rest
      end
  end.

End Insertion.

(* ===================================================================== *)
(** ** Sample environments and inputs *)
(* ===================================================================== *)

Module Sample.

Definition hex (n : nat) : ascii :=
  nth n ["0"; "1"; "2"; "3"; "4"; "5"; "6"; "7"; "8"; "9";
         "a"; "b"; "c"; "d"; "e"; "f"]%char "0"%char.

Definition uuid_of (n : nat) : string :=
  "00000000-0000-4000-8000-0000000000"
    +:+ String (hex ((n / 16) mod 16)) (String (hex (n mod 16)) "").

Definition doc (text source : string) : Document :=
  mkDocument text {["source" := source]}.

(** Every call succeeds; any file parses to one short document. *)
Definition quiet : Env :=
  {| DOCUMENTS_DIR := "docs";
     path_suffix_lower := fun _ => ".txt";
     path_name := fun p => p;
     loader_load := fun _ _ => Some [mkDocument "hello" ∅];
     split_documents := fun ds => ds;
     uuid4 := uuid_of;
     create_fault := fun _ => false;
     add_fault := fun _ _ _ => None;
     delete_fault := fun _ _ => None;
     save_fault := fun _ _ => None |}.


(** Every snapshot write raises and leaves the directory as it was. *)
Definition disk_full : Env :=
  {| DOCUMENTS_DIR := "docs";
     path_suffix_lower := fun _ => ".txt";
     path_name := fun p => p;
     loader_load := fun _ _ => Some [mkDocument "hello" ∅];
     split_documents := fun ds => ds;
     uuid4 := uuid_of;
     create_fault := fun _ => false;
     add_fault := fun _ _ _ => None;
     delete_fault := fun _ _ => None;
     save_fault := fun _ d => Some d |}.

(** The embedding provider is unreachable. *)
Definition embedding_down : Env :=
  {| DOCUMENTS_DIR := "docs";
     path_suffix_lower := fun _ => ".txt";
     path_name := fun p => p;
     loader_load := fun _ _ => Some [mkDocument "hello" ∅];
     split_documents := fun ds => ds;
     uuid4 := uuid_of;
     create_fault := fun _ => true;
     add_fault := fun i _ _ => Some i;
     delete_fault := fun _ _ => None;
     save_fault := fun _ _ => None |}.

(** A store holding two chunks of [a.txt] and one of [b.txt]. *)
Definition three_entries : Index :=
  [("a.txt_1", doc "one" "a.txt");
   ("b.txt_1", doc "two" "b.txt");
   ("a.txt_2", doc "three" "a.txt")].

Definition world_of (i : Index) : World :=
  {| ledger_file := None;
     vector_store := Some i;
     snapshot_dir := DirSaved i;
     uuid_calls := 0;
     trace := [] |}.

Definition five_docs : list Document :=
  [doc "c1" "a.txt"; doc "c2" "a.txt"; doc "c3" "a.txt";
   doc "c4" "a.txt"; doc "c5" "a.txt"].

End Sample.

(* ===================================================================== *)
(** ** Running the monad *)
(* ===================================================================== *)

Ltac run :=
  unfold bind, ret, raise, modify, get, try_except in *; simpl in *.

Lemma bind_ret_l {A B} (a : A) (k : A -> M B) (w : World) :
  bind (ret a) k w = k a w.
Proof. reflexivity. Qed.

Lemma bind_run {A B} (m : M A) (k : A -> M B) (w w' : World) (a : A) :
  m w = (Ret a, w') -> bind m k w = k a w'.
Proof. intros H. unfold bind. now rewrite H. Qed.

Lemma bind_raise {A B} (m : M A) (k : A -> M B) (w w' : World) (e : Exn) :
  m w = (Raise e, w') -> bind m k w = (Raise e, w').
Proof. intros H. unfold bind. now rewrite H. Qed.

(* ===================================================================== *)
(** ** Empty arguments and the count check *)
(* ===================================================================== *)

(** C8: inserting an empty chunk sequence returns false without raising;
    the index, the snapshot directory, the ledger (the whole world, call
    log included) stay as they were. *)
Theorem add_documents_empty_noop :
  forall env batch_size ids w,
    FAISSVectorStore.add_documents env [] batch_size ids w = (Ret false, w).
Proof. reflexivity. Qed.

(** C10: delete with an empty id list returns false; no engine delete is
    called and no snapshot is written, the world is unchanged. *)
Theorem delete_empty_noop :
  forall env w, FAISSVectorStore.delete env [] w = (Ret false, w).
Proof. reflexivity. Qed.

(** C2: with chunks present and an id list of another length, insert
    raises the count mismatch and the world is exactly as before: nothing
    added to the store, no snapshot written, no ledger record, no external
    call made. *)
Theorem add_documents_count_mismatch :
  forall env documents batch_size ids w,
    documents <> [] ->
    length ids <> length documents ->
    FAISSVectorStore.add_documents env documents batch_size (Some ids) w
    = (Raise (CountMismatch (length documents) (length ids)), w).
Proof.
  intros env documents batch_size ids w Hne Hlen.
  destruct documents as [|d ds]; [congruence|].
  unfold FAISSVectorStore.add_documents.
  rewrite bind_ret_l.
  destruct (length (d :: ds) =? length ids) eqn:E.
  - apply Nat.eqb_eq in E. congruence.
  - reflexivity.
Qed.

Lemma add_documents_count_mismatch_witness :
  FAISSVectorStore.add_documents Sample.quiet Sample.five_docs 10
    (Some ["x"; "y"; "z"]) (Sample.world_of Sample.three_entries)
  = (Raise (CountMismatch 5 3), Sample.world_of Sample.three_entries).
Proof.
  apply (add_documents_count_mismatch Sample.quiet Sample.five_docs 10
           ["x"; "y"; "z"] (Sample.world_of Sample.three_entries)).
  - discriminate.
  - simpl. lia.
Defined.

(* ===================================================================== *)
(** ** Text lemmas *)
(* ===================================================================== *)

Example splitlines_blank_line :
  PyStr.splitlines (String "a" (String "010" (String "010" (String "b" ""))))
  = ["a"; ""; "b"].
Proof. reflexivity. Qed.

Example splitlines_crlf :
  PyStr.splitlines
    (String "a" (String "013" (String "010" (String "b" (String "010" "")))))
  = ["a"; "b"].
Proof. reflexivity. Qed.

Example splitlines_form_feed_cuts_a_path :
  PyStr.splitlines (String "a" (String "012" (String "b" (String "010" ""))))
  = ["a"; "b"].
Proof. reflexivity. Qed.

Example range0_steps : PyStr.range0 25 10 = Some [0; 10; 20].
Proof. reflexivity. Qed.

Example range0_negative_step : PyStr.range0 25 (-1) = Some [].
Proof. reflexivity. Qed.

Lemma str_app_cons (c : ascii) (a b : string) :
  String c a +:+ b = String c (a +:+ b).
Proof. reflexivity. Qed.

Lemma str_app_nil_l (b : string) : "" +:+ b = b.
Proof. reflexivity. Qed.

Lemma str_length_app (a b : string) :
  String.length (a +:+ b) = String.length a + String.length b.
Proof.
  induction a as [|c a IH]; [reflexivity|].
  rewrite str_app_cons. simpl. now rewrite IH.
Qed.

Lemma str_app_assoc (a b c : string) : (a +:+ b) +:+ c = a +:+ (b +:+ c).
Proof.
  induction a as [|x a IH]; [reflexivity|].
  rewrite !str_app_cons. now rewrite IH.
Qed.

Lemma str_app_nil_r (a : string) : a +:+ "" = a.
Proof.
  induction a as [|x a IH]; [reflexivity|].
  rewrite str_app_cons. now rewrite IH.
Qed.

(** Two texts that end in tails of one length and are equal have equal
    tails. *)
Lemma str_app_inj_tail (a b x y : string) :
  a +:+ x = b +:+ y -> String.length x = String.length y -> x = y.
Proof.
  revert b. induction a as [|c a IH]; intros b Heq Hlen.
  - destruct b as [|d b]; [exact Heq|].
    exfalso. apply (f_equal String.length) in Heq.
    rewrite str_app_nil_l, str_app_cons in Heq.
    simpl in Heq. rewrite str_length_app in Heq. lia.
  - destruct b as [|d b].
    + exfalso. apply (f_equal String.length) in Heq.
      rewrite str_app_nil_l, str_app_cons in Heq.
      simpl in Heq. rewrite str_length_app in Heq. lia.
    + rewrite !str_app_cons in Heq. injection Heq as _ Heq. now apply (IH b).
Qed.

Lemma str_in_In (x : string) (l : list string) :
  PyStr.str_in x l = true <-> In x l.
Proof.
  unfold PyStr.str_in. rewrite existsb_exists. split.
  - intros [y [Hy Heq]]. apply String.eqb_eq in Heq. now subst.
  - intros H. exists x. split; [exact H | apply String.eqb_refl].
Qed.

Lemma uuid_shape_length (s : string) (pos : nat) :
  uuid_shape pos s = true -> pos + String.length s = 36.
Proof.
  revert pos. induction s as [|c s IH]; intros pos H; simpl in *.
  - apply Nat.eqb_eq in H. lia.
  - apply andb_true_iff in H as [_ H]. apply IH in H. lia.
Qed.

Lemma is_uuid_text_length (s : string) :
  is_uuid_text s = true -> String.length s = 36.
Proof. intros H. apply uuid_shape_length in H. lia. Qed.

(* ===================================================================== *)
(** ** Generated ids *)
(* ===================================================================== *)

(** [generate_ids] draws one UUID per document, in order, and returns. *)
Lemma generate_ids_run env (documents : list Document) (w : World) :
  FAISSVectorStore.generate_ids env documents w
  = (Ret (map (fun '(doc, k) => id_for doc (uuid4 env k))
              (combine documents (seq (uuid_calls w) (length documents)))),
     set_uuid_calls (uuid_calls w + length documents) w).
Proof.
  revert w. induction documents as [|doc rest IH]; intros w.
  - simpl. unfold ret, set_uuid_calls. rewrite Nat.add_0_r. now destruct w.
  - simpl. unfold bind at 1. unfold FAISSVectorStore.draw_uuid4.
    unfold bind at 1. rewrite IH. unfold ret, set_uuid_calls; simpl.
    unfold id_for. do 2 f_equal. f_equal. lia.
Qed.

Lemma id_for_inj_uuid (d1 d2 : Document) (u1 u2 : string) :
  String.length u1 = String.length u2 ->
  id_for d1 u1 = id_for d2 u2 -> u1 = u2.
Proof.
  intros Hlen Heq. unfold id_for in Heq.
  rewrite <- !str_app_assoc in Heq.
  now apply str_app_inj_tail in Heq.
Qed.

Lemma generated_ids_NoDup env (documents : list Document) (n : nat) :
  forallb is_uuid_text (map (uuid4 env) (seq n (length documents))) = true ->
  NoDup (map (uuid4 env) (seq n (length documents))) ->
  NoDup (map (fun '(doc, k) => id_for doc (uuid4 env k))
             (combine documents (seq n (length documents)))).
Proof.
  revert n.
  induction documents as [|doc rest IH]; intros n Hshape Hnd; simpl in *.
  - constructor.
  - apply andb_true_iff in Hshape as [Hu Hshape].
    inversion Hnd as [|u us Hnotin Hnd']; subst. constructor.
    + intros Hin. apply Hnotin.
      apply list_elem_of_In in Hin. apply list_elem_of_In.
      apply in_map_iff in Hin as [[d k] [Heq Hin]].
      assert (Hk : In (uuid4 env k) (map (uuid4 env) (seq (S n) (length rest)))).
      { apply in_map. eapply in_combine_r. exact Hin. }
      apply id_for_inj_uuid in Heq.
      * now rewrite <- Heq.
      * rewrite forallb_forall in Hshape.
        rewrite (is_uuid_text_length _ (Hshape _ Hk)).
        now rewrite (is_uuid_text_length _ Hu).
    + now apply IH.
Qed.

(** C9: without caller-supplied ids, insert generates one id per chunk,
    the k-th being the chunk's [source] metadata (the empty text when
    absent), an underscore and the k-th UUID drawn; it then proceeds as
    if the caller had passed exactly these ids.  When the UUIDs drawn are
    canonical UUID texts and fresh (pairwise distinct), the ids are
    pairwise distinct. *)
Theorem add_documents_generated_ids :
  forall env documents batch_size w,
    documents <> [] ->
    forallb is_uuid_text
      (map (uuid4 env) (seq (uuid_calls w) (length documents))) = true ->
    NoDup (map (uuid4 env) (seq (uuid_calls w) (length documents))) ->
    exists ids w1,
      FAISSVectorStore.generate_ids env documents w = (Ret ids, w1) /\
      length ids = length documents /\
      (forall k doc,
          nth_error documents k = Some doc ->
          nth_error ids k
          = Some (default "" (metadata doc !! "source") +:+ "_"
                    +:+ uuid4 env (uuid_calls w + k))) /\
      NoDup ids /\
      FAISSVectorStore.add_documents env documents batch_size None w
      = FAISSVectorStore.add_documents env documents batch_size (Some ids) w1.
Proof.
  intros env documents batch_size w Hne Hshape Hfresh.
  eexists. eexists. split; [apply generate_ids_run|].
  split; [|split; [|split]].
  - rewrite length_map, length_combine, length_seq. lia.
  - intros k doc Hk.
    rewrite nth_error_map.
    assert (Hc : nth_error (combine documents (seq (uuid_calls w) (length documents))) k
                 = Some (doc, uuid_calls w + k)).
    { clear Hne Hfresh Hshape. generalize (uuid_calls w) as n. revert k Hk.
      induction documents as [|d ds IH]; intros k Hk n.
      - destruct k; discriminate.
      - destruct k; simpl in *.
        + injection Hk as ->. now rewrite Nat.add_0_r.
        + rewrite (IH k Hk (S n)). f_equal. f_equal. lia. }
    rewrite Hc. reflexivity.
  - now apply generated_ids_NoDup.
  - destruct documents as [|d ds]; [congruence|].
    unfold FAISSVectorStore.add_documents.
    unfold bind at 1. rewrite generate_ids_run.
    rewrite bind_ret_l. reflexivity.
Qed.

Lemma add_documents_generated_ids_witness :
  exists ids w1,
    FAISSVectorStore.generate_ids Sample.quiet Sample.five_docs
      (Sample.world_of Sample.three_entries) = (Ret ids, w1) /\
    length ids = length Sample.five_docs /\
    (forall k doc,
        nth_error Sample.five_docs k = Some doc ->
        nth_error ids k
        = Some (default "" (metadata doc !! "source") +:+ "_"
                  +:+ uuid4 Sample.quiet
                        (uuid_calls (Sample.world_of Sample.three_entries) + k))) /\
    NoDup ids /\
    FAISSVectorStore.add_documents Sample.quiet Sample.five_docs 2 None
      (Sample.world_of Sample.three_entries)
    = FAISSVectorStore.add_documents Sample.quiet Sample.five_docs 2 (Some ids) w1.
Proof.
  apply (add_documents_generated_ids Sample.quiet Sample.five_docs 2
           (Sample.world_of Sample.three_entries)).
  - discriminate.
  - vm_compute. reflexivity.
  - apply (bool_decide_unpack _). vm_compute. reflexivity.
Defined.

(* ===================================================================== *)
(** ** Deletion *)
(* ===================================================================== *)

(** What [delete] does on a store [i], spelled out by the engine's and
    the disk's answers. *)
Lemma delete_run env (ids : list string) (w : World) (i : Index) :
  ids <> [] ->
  vector_store w = Some i ->
  FAISSVectorStore.delete env ids w =
  let w1 := log (EvEngineDelete ids) w in
  match delete_fault env i ids with
  | Some rest => (Ret false, set_vector_store (Some rest) w1)
  | None =>
      let kept := Engine.removed i ids in
      let w2 := log (EvSaveLocal kept) (set_vector_store (Some kept) w1) in
      match save_fault env kept (snapshot_dir w) with
      | Some rest => (Ret false, set_snapshot_dir rest w2)
      | None => (Ret true, set_snapshot_dir (DirSaved kept) w2)
      end
  end.
Proof.
  intros Hne Hvs. destruct ids as [|x xs]; [congruence|].
  unfold FAISSVectorStore.delete, FAISSVectorStore.vector_store_delete,
    FAISSVectorStore.save, Engine.delete, Engine.save_local.
  run. rewrite Hvs. simpl.
  destruct (delete_fault env i (x :: xs)) as [rest|]; simpl; [reflexivity|].
  destruct (save_fault env _ (snapshot_dir w)) as [rest|]; reflexivity.
Qed.

Lemma matching_ids_In (all_ids source_paths : list string) (x : string) :
  In x (FAISSVectorStore.matching_ids all_ids source_paths)
  <-> In x all_ids /\ id_of_sources source_paths x = true.
Proof.
  unfold FAISSVectorStore.matching_ids, id_of_sources.
  rewrite in_flat_map, existsb_exists. split.
  - intros [sp [Hsp Hin]]. apply filter_In in Hin as [Hin Hpre]. eauto.
  - intros [Hin [sp [Hsp Hpre]]]. exists sp. split; [exact Hsp|].
    apply filter_In. auto.
Qed.



(** Deleting the matching ids keeps exactly the entries whose id no listed
    source path starts. *)
Lemma removed_matching (i : Index) (source_paths : list string) :
  Engine.removed i (FAISSVectorStore.matching_ids (index_ids i) source_paths)
  = List.filter (fun e => negb (id_of_sources source_paths (fst e))) i.
Proof.
  unfold Engine.removed. apply filter_ext_in. intros e He. f_equal.
  apply Bool.eq_iff_eq_true. rewrite str_in_In, matching_ids_In.
  split; [tauto|]. intros Hm. split; [|exact Hm].
  unfold index_ids. now apply in_map.
Qed.

(** Once the ids are resolved, [delete_by_source] goes on as [delete]. *)
Lemma delete_by_source_run env (source_paths : list string) (w : World) (i : Index) :
  source_paths <> [] ->
  vector_store w = Some i ->
  FAISSVectorStore.delete_by_source env source_paths w =
  match FAISSVectorStore.matching_ids (index_ids i) source_paths with
  | [] => (Ret false, w)
  | x :: xs => FAISSVectorStore.delete env (x :: xs) w
  end.
Proof.
  intros Hne Hvs. destruct source_paths as [|sp sps]; [congruence|].
  unfold FAISSVectorStore.delete_by_source, FAISSVectorStore.delete.
  unfold try_except, bind, get, ret. rewrite Hvs. cbv beta iota zeta.
  destruct (FAISSVectorStore.matching_ids (index_ids i) (sp :: sps));
    reflexivity.
Qed.



(** C4, as amended: for a non-empty id list [delete] never raises.  When
    the engine's delete raises, the answer is false, no save is attempted
    and the snapshot directory is untouched, the store in memory being
    what the engine left.  When the engine's delete succeeds, the listed
    ids are gone from the store in memory and one save is attempted; if
    that save raises the answer is false and the deletion stays in
    memory. *)
Theorem delete_fails_softly :
  forall env ids w i,
    ids <> [] ->
    vector_store w = Some i ->
    exists b w',
      FAISSVectorStore.delete env ids w = (Ret b, w') /\
      ledger_file w' = ledger_file w /\
      match delete_fault env i ids with
      | Some rest =>
          b = false /\
          vector_store w' = Some rest /\
          snapshot_dir w' = snapshot_dir w /\
          new_events w w' = [EvEngineDelete ids]
      | None =>
          let kept := Engine.removed i ids in
          vector_store w' = Some kept /\
          new_events w w' = [EvEngineDelete ids; EvSaveLocal kept] /\
          match save_fault env kept (snapshot_dir w) with
          | Some rest => b = false /\ snapshot_dir w' = rest
          | None => b = true /\ snapshot_dir w' = DirSaved kept
          end
      end.
Proof.
  intros env ids w i Hne Hvs.
  rewrite (delete_run env ids w i Hne Hvs). cbv zeta.
  destruct (delete_fault env i ids) as [rest|].
  - eexists. eexists. split; [reflexivity|]. split; [reflexivity|].
    repeat split. unfold new_events. simpl. now rewrite drop_app_length.
  - destruct (save_fault env (Engine.removed i ids) (snapshot_dir w)) as [rest|];
      (eexists; eexists; split; [reflexivity|]; split; [reflexivity|];
       repeat split; unfold new_events; simpl;
       rewrite <- app_assoc; now rewrite drop_app_length).
Qed.

Lemma delete_fails_softly_witness :
  exists b w',
    FAISSVectorStore.delete Sample.disk_full ["b.txt_1"]
      (Sample.world_of Sample.three_entries) = (Ret b, w') /\
    b = false /\
    vector_store w'
    = Some [("a.txt_1", Sample.doc "one" "a.txt");
            ("a.txt_2", Sample.doc "three" "a.txt")] /\
    snapshot_dir w' = DirSaved Sample.three_entries.
Proof.
  destruct (delete_fails_softly Sample.disk_full ["b.txt_1"]
              (Sample.world_of Sample.three_entries) Sample.three_entries)
    as [b [w' [Hrun [_ H]]]]; [discriminate | reflexivity |].
  exists b, w'. split; [exact Hrun|].
  simpl in H. destruct H as [Hvs [_ [Hb Hdir]]]. auto.
Defined.

(** C4, as stated, fails: the snapshot write raises after the engine has
    deleted ["b.txt_1"]; [delete] answers false, yet the store in memory
    has lost the entry and no longer equals the one on disk. *)
Lemma delete_save_failure_keeps_deletion :
  let w := Sample.world_of Sample.three_entries in
  let kept := Engine.removed Sample.three_entries ["b.txt_1"] in
  delete_fault Sample.disk_full Sample.three_entries ["b.txt_1"] = None /\
  save_fault Sample.disk_full kept (snapshot_dir w) <> None /\
  fst (FAISSVectorStore.delete Sample.disk_full ["b.txt_1"] w) = Ret false /\
  vector_store (snd (FAISSVectorStore.delete Sample.disk_full ["b.txt_1"] w))
  <> vector_store w.
Proof.
  repeat split; try reflexivity; vm_compute; discriminate.
Qed.

(* ===================================================================== *)
(** ** Opening the store *)
(* ===================================================================== *)

(** C6, as amended: a saved snapshot is loaded and returned, the
    directory left as it is.  With a directory that is missing or empty,
    or a snapshot whose load raises, the load error is swallowed and a
    new store is made: one placeholder entry, saved at once to the
    snapshot directory.  Making that store can itself raise, when the
    placeholder cannot be embedded or the save fails, and such an error
    does reach the caller. *)
Theorem load_or_create_vector_store_cases :
  forall env w,
    FAISSVectorStore._load_or_create_vector_store env w
    = match snapshot_dir w with
      | DirSaved i => (Ret i, log EvLoadLocal w)
      | DirCorrupt => FAISSVectorStore.create_placeholder_store env (log EvLoadLocal w)
      | DirMissing | DirEmpty => FAISSVectorStore.create_placeholder_store env w
      end
    /\
    forall w0,
      FAISSVectorStore.create_placeholder_store env w0
      = let text := FAISSVectorStore.PLACEHOLDER_TEXT in
        let w1 := log (EvFromTexts [text]) w0 in
        if create_fault env [text]
        then (Raise (ExternalFailure OpFromTexts), w1)
        else
          let fresh := [(uuid4 env (uuid_calls w0), mkDocument text ∅)] in
          let w2 := log (EvSaveLocal fresh) (set_uuid_calls (uuid_calls w0 + 1) w1) in
          match save_fault env fresh (snapshot_dir w0) with
          | Some rest => (Raise (ExternalFailure OpSaveLocal), set_snapshot_dir rest w2)
          | None => (Ret fresh, set_snapshot_dir (DirSaved fresh) w2)
          end.
Proof.
  intros env w. split.
  - unfold FAISSVectorStore._load_or_create_vector_store, Engine.load_local.
    unfold bind at 1. unfold get at 1. cbv beta iota.
    destruct (snapshot_dir w) eqn:E; simpl;
      unfold bind, try_except, modify, get, ret, raise; simpl;
      rewrite ?E; reflexivity.
  - intros w0.
    unfold FAISSVectorStore.create_placeholder_store, Engine.from_texts,
      Engine.save_local.
    unfold bind, modify, get, ret, raise. simpl.
    destruct (create_fault env [FAISSVectorStore.PLACEHOLDER_TEXT]); [reflexivity|].
    simpl.
    destruct (save_fault env _ (snapshot_dir w0)); reflexivity.
Qed.

(** Once the constructor has returned, the store is never [None]. *)
Lemma init_sets_vector_store env (w w' : World) :
  FAISSVectorStore.__init__ env w = (Ret tt, w') ->
  exists i, vector_store w' = Some i.
Proof.
  unfold FAISSVectorStore.__init__, bind, modify. intros H.
  destruct (FAISSVectorStore._load_or_create_vector_store env w) as [[vs|e] w1];
    [|discriminate].
  injection H as <-. now exists vs.
Qed.

(** C6, as stated, fails: the snapshot is corrupt and the embedding
    provider is down; the load error is swallowed, but embedding the
    placeholder raises and [_load_or_create_vector_store] raises with it,
    leaving the corrupt snapshot in place. *)
Lemma load_or_create_can_raise :
  let w := {| ledger_file := None; vector_store := None;
              snapshot_dir := DirCorrupt; uuid_calls := 0; trace := [] |} in
  FAISSVectorStore._load_or_create_vector_store Sample.embedding_down w
  = (Raise (ExternalFailure OpFromTexts),
     log (EvFromTexts [FAISSVectorStore.PLACEHOLDER_TEXT]) (log EvLoadLocal w)).
Proof. reflexivity. Qed.

(* ===================================================================== *)
(** ** Lines of the ledger file *)
(* ===================================================================== *)

Ltac split_byte_tests :=
  repeat match goal with
         | |- context [Ascii.eqb ?x ?k] => is_var x; destruct (Ascii.eqb x k)
         | |- context [PyStr.is_line_break_byte ?x] =>
             is_var x; destruct (PyStr.is_line_break_byte x)
         end.

Lemma splitlines_from_step (c : ascii) (rest cur : string) :
  PyStr.splitlines_from 0 cur (String c rest)
  = match PyStr.line_break_width (String c rest) with
    | O => PyStr.splitlines_from 0 (cur +:+ String c "") rest
    | S k => cur :: PyStr.splitlines_from k "" rest
    end.
Proof. reflexivity. Qed.

Lemma splitlines_from_skip (k : nat) (c : ascii) (rest cur : string) :
  PyStr.splitlines_from (S k) cur (String c rest) = PyStr.splitlines_from k cur rest.
Proof. reflexivity. Qed.

Lemma line_break_width_newline (T : string) :
  PyStr.line_break_width (String "010" T) = 1.
Proof. reflexivity. Qed.

(** Appending a newline after a text does not create a boundary at a
    byte where there was none. *)
Lemma line_break_width_app_newline (c : ascii) (r R : string) :
  PyStr.line_break_width (String c r) = 0 ->
  PyStr.line_break_width (String c (r +:+ String "010" R)) = 0.
Proof.
  destruct r as [|d [|e r']]; rewrite ?str_app_cons, ?str_app_nil_l;
    cbv beta iota delta [PyStr.line_break_width];
    split_byte_tests; simpl; intros; try congruence;
    destruct R; reflexivity.
Qed.

(** A boundary that starts inside [L] ends at the latest on the newline
    that follows [L]. *)
Lemma line_break_width_bound (c : ascii) (L T : string) :
  PyStr.line_break_width (String c (L +:+ String "010" T)) <= S (S (String.length L)).
Proof.
  destruct L as [|d [|e L']]; rewrite ?str_app_cons, ?str_app_nil_l;
    cbv beta iota delta [PyStr.line_break_width];
    split_byte_tests; simpl; try lia;
    destruct T; lia.
Qed.

(** A text free of line boundaries, then a newline: one line. *)
Lemma splitlines_from_line (p : string) :
  PyStr.no_line_break p = true ->
  forall cur R,
    PyStr.splitlines_from 0 cur (p +:+ String "010" R)
    = (cur +:+ p) :: PyStr.splitlines_from 0 "" R.
Proof.
  induction p as [|c r IH]; intros Hp cur R.
  - rewrite str_app_nil_l, str_app_nil_r, splitlines_from_step.
    now rewrite line_break_width_newline.
  - simpl in Hp. apply andb_true_iff in Hp as [Hw Hr].
    apply Nat.eqb_eq in Hw.
    rewrite str_app_cons, splitlines_from_step.
    rewrite (line_break_width_app_newline c r R Hw).
    rewrite (IH Hr). f_equal.
    now rewrite str_app_assoc, str_app_cons, str_app_nil_l.
Qed.

(** Whatever precedes a newline, the lines of what follows it are among
    the lines of the whole. *)
Lemma splitlines_from_after_newline (x T : string) :
  In x (PyStr.splitlines_from 0 "" T) ->
  forall L skip cur,
    skip <= S (String.length L) ->
    (0 < skip -> cur = "") ->
    In x (PyStr.splitlines_from skip cur (L +:+ String "010" T)).
Proof.
  intros HT. induction L as [|c L IH]; intros skip cur Hskip Hcur.
  - rewrite str_app_nil_l. destruct skip as [|[|k]].
    + rewrite splitlines_from_step, line_break_width_newline. now right.
    + rewrite splitlines_from_skip. rewrite Hcur by lia. exact HT.
    + simpl in Hskip. lia.
  - rewrite str_app_cons. destruct skip as [|k].
    + rewrite splitlines_from_step.
      pose proof (line_break_width_bound c L T) as Hb.
      destruct (PyStr.line_break_width (String c (L +:+ String "010" T))) as [|k].
      * apply IH; lia.
      * right. apply IH; [lia | reflexivity].
    + rewrite splitlines_from_skip. simpl in Hskip.
      apply IH; [lia | intros _; apply Hcur; lia].
Qed.

Lemma newline_terminated_cases (s : string) :
  PyStr.newline_terminated s = true ->
  s = "" \/ exists L, s = L +:+ String "010" "".
Proof.
  induction s as [|c s IH]; intros H; [now left | right].
  destruct s as [|d s'].
  - simpl in H. apply Ascii.eqb_eq in H. subst. now exists "".
  - destruct IH as [Hnil | [L HL]]; [exact H | discriminate |].
    exists (String c L). now rewrite str_app_cons, <- HL.
Qed.

Lemma newline_terminated_app (a : string) :
  PyStr.newline_terminated (a +:+ String "010" "") = true.
Proof.
  induction a as [|c a IH]; [reflexivity|].
  rewrite str_app_cons.
  destruct a as [|d a']; [reflexivity|].
  rewrite str_app_cons in *. exact IH.
Qed.

(** After [doc_id] and a newline are appended to a well-formed ledger,
    [doc_id] is one of its lines. *)
Lemma recorded_after_append (content p : string) :
  PyStr.newline_terminated content = true ->
  PyStr.no_line_break p = true ->
  PyStr.str_in p (PyStr.splitlines (content +:+ p +:+ String "010" "")) = true.
Proof.
  intros Hc Hp. apply str_in_In. unfold PyStr.splitlines.
  assert (HT : In p (PyStr.splitlines_from 0 "" (p +:+ String "010" ""))).
  { rewrite (splitlines_from_line p Hp). rewrite str_app_nil_l. now left. }
  destruct (newline_terminated_cases content Hc) as [-> | [L ->]].
  - now rewrite str_app_nil_l.
  - rewrite str_app_assoc, str_app_cons, str_app_nil_l.
    apply splitlines_from_after_newline; [exact HT | lia | lia].
Qed.

(* ===================================================================== *)
(** ** What a call leaves alone *)
(* ===================================================================== *)

Section Frame.
Context {X : Type} (f : World -> X).

Lemma keeps_ret {A} (a : A) : keeps f (ret a).
Proof. intros w. reflexivity. Qed.

Lemma keeps_raise {A} (e : Exn) : keeps f (@raise A e).
Proof. intros w. reflexivity. Qed.

Lemma keeps_get : keeps f get.
Proof. intros w. reflexivity. Qed.

Lemma keeps_modify (g : World -> World) :
  (forall w, f (g w) = f w) -> keeps f (modify g).
Proof. intros H w. apply H. Qed.

Lemma keeps_bind {A B} (m : M A) (k : A -> M B) :
  keeps f m -> (forall a, keeps f (k a)) -> keeps f (bind m k).
Proof.
  intros Hm Hk w. unfold bind. specialize (Hm w).
  destruct (m w) as [[a|e] w']; simpl in *.
  - now rewrite Hk.
  - exact Hm.
Qed.

Lemma keeps_try_except {A} (m : M A) (h : Exn -> M A) :
  keeps f m -> (forall e, keeps f (h e)) -> keeps f (try_except m h).
Proof.
  intros Hm Hh w. unfold try_except. specialize (Hm w).
  destruct (m w) as [[a|e] w']; simpl in *.
  - exact Hm.
  - now rewrite Hh.
Qed.

Lemma keeps_for_each {A} (xs : list A) (body : A -> M unit) :
  (forall x, keeps f (body x)) -> keeps f (for_each xs body).
Proof.
  intros Hb. induction xs as [|x xs IH]; simpl.
  - apply keeps_ret.
  - apply keeps_bind; [apply Hb | intros _; exact IH].
Qed.

End Frame.

Ltac keeps_step :=
  first
    [ apply keeps_ret | apply keeps_raise | apply keeps_get
    | apply keeps_modify; intros; reflexivity
    | apply keeps_bind; [|intros]
    | apply keeps_try_except; [|intros]
    | apply keeps_for_each; intros ].

(** No call into the engine writes the ledger file. *)
Lemma engine_add_keeps_ledger env i batch ids :
  keeps ledger_file (Engine.add_documents env i batch ids).
Proof.
  unfold Engine.add_documents. repeat keeps_step.
  destruct (add_fault env i batch ids); repeat keeps_step.
Qed.

Lemma engine_from_documents_keeps_ledger env batch ids :
  keeps ledger_file (Engine.from_documents env batch ids).
Proof.
  unfold Engine.from_documents. repeat keeps_step.
  destruct (create_fault env _); repeat keeps_step.
Qed.

Lemma engine_save_keeps_ledger env i :
  keeps ledger_file (Engine.save_local env i).
Proof.
  unfold Engine.save_local. repeat keeps_step.
  destruct (save_fault env i _); repeat keeps_step.
Qed.

Lemma generate_ids_keeps_ledger env documents :
  keeps ledger_file (FAISSVectorStore.generate_ids env documents).
Proof.
  intros w. now rewrite generate_ids_run.
Qed.

(** Insert never touches the ledger, whatever its outcome. *)
Lemma add_documents_keeps_ledger env documents batch_size ids :
  keeps ledger_file (FAISSVectorStore.add_documents env documents batch_size ids).
Proof.
  unfold FAISSVectorStore.add_documents.
  destruct documents as [|d ds]; [apply keeps_ret|].
  apply keeps_bind.
  { destruct ids; [apply keeps_ret | apply generate_ids_keeps_ledger]. }
  intros ids'.
  destruct (negb (length (d :: ds) =? length ids')); [apply keeps_raise|].
  apply keeps_bind.
  { unfold DocumentLoaderService.batch_process_documents.
    destruct (PyStr.range0 _ batch_size); repeat keeps_step. }
  intros batches. apply keeps_bind.
  { destruct (PyStr.range0 _ batch_size); repeat keeps_step. }
  intros id_batches. apply keeps_bind.
  { apply keeps_for_each. intros [batch batch_ids].
    unfold FAISSVectorStore.insert_batch. apply keeps_bind; [apply keeps_get|].
    intros w0. destruct (vector_store w0).
    - apply engine_add_keeps_ledger.
    - apply keeps_bind; [apply engine_from_documents_keeps_ledger|].
      intros. repeat keeps_step. }
  intros _. apply keeps_bind; [apply keeps_get|]. intros w0.
  destruct (vector_store w0).
  - apply keeps_bind; [apply engine_save_keeps_ledger | intros; apply keeps_ret].
  - apply keeps_ret.
Qed.

(* ===================================================================== *)
(** ** The loader and the ledger *)
(* ===================================================================== *)

Lemma load_document_keeps_ledger env p :
  keeps ledger_file (DocumentLoaderService.load_document env p).
Proof.
  unfold DocumentLoaderService.load_document.
  destruct (DocumentLoaderService.SUPPORTED_LOADERS !! _); [|apply keeps_raise].
  apply keeps_bind; [repeat keeps_step|]. intros _.
  destruct (loader_load env _ p); repeat keeps_step.
Qed.

(** [_process_file] with [skip_processed=True]: skip when recorded; else
    load, and record only when the load returned. *)
Lemma process_file_run env (p : string) (w : World) :
  DocumentLoaderService._process_file env p true w
  = if is_recorded w p then (Ret [], w)
    else
      match DocumentLoaderService.load_document env p w with
      | (Ret chunks, w1) =>
          (Ret chunks,
           set_ledger_file
             (Some (default "" (ledger_file w) +:+ p +:+ String "010" "")) w1)
      | (Raise _, w1) => (Ret [], w1)
      end.
Proof.
  unfold DocumentLoaderService._process_file,
    DocumentLoaderService._is_document_processed, is_recorded.
  unfold bind at 1. unfold bind at 1. unfold get at 1.
  destruct (ledger_file w) as [content|] eqn:E; unfold ret at 1;
    [destruct (PyStr.str_in p (PyStr.splitlines content)); [reflexivity|]|];
    unfold try_except, bind at 1;
    pose proof (load_document_keeps_ledger env p w) as Hk;
    destruct (DocumentLoaderService.load_document env p w) as [[chunks|e] w1];
    simpl in Hk; try reflexivity;
    unfold DocumentLoaderService._record_processed_document, bind, modify, ret;
    rewrite Hk, E; reflexivity.
Qed.

(** The ledger stays well formed: the loader only ever appends an
    identifier followed by a newline. *)
Lemma process_file_keeps_ledger_wf env (p : string) (w : World) :
  ledger_wf w = true ->
  ledger_wf (snd (DocumentLoaderService._process_file env p true w)) = true.
Proof.
  intros Hwf. rewrite process_file_run.
  destruct (is_recorded w p); [exact Hwf|].
  pose proof (load_document_keeps_ledger env p w) as Hk.
  destruct (DocumentLoaderService.load_document env p w) as [[chunks|e] w1];
    simpl in *.
  - unfold ledger_wf. simpl. rewrite <- str_app_assoc.
    apply newline_terminated_app.
  - unfold ledger_wf in *. now rewrite Hk.
Qed.






(* ===================================================================== *)
(** ** Batches *)
(* ===================================================================== *)

Lemma range0_windows {A} (l : list A) (n : nat) (batch_size : Z) :
  (0 < batch_size)%Z ->
  exists starts,
    PyStr.range0 n batch_size = Some starts /\
    map (fun i => PyStr.slice l i (i + Z.to_nat batch_size)) starts
    = map (fun k => firstn (Z.to_nat batch_size) (skipn (k * Z.to_nat batch_size) l))
          (seq 0 ((n + Z.to_nat batch_size - 1) / Z.to_nat batch_size)).
Proof.
  intros Hpos. unfold PyStr.range0.
  destruct (batch_size =? 0)%Z eqn:E0; [apply Z.eqb_eq in E0; lia|].
  destruct (batch_size <? 0)%Z eqn:E1; [apply Z.ltb_lt in E1; lia|].
  eexists. split; [reflexivity|].
  rewrite map_map. apply map_ext. intros k. unfold PyStr.slice.
  f_equal. lia.
Qed.

Lemma ceil_div_covers (n s : nat) : 0 < s -> n <= (n + s - 1) / s * s.
Proof.
  intros Hs. pose proof (Nat.div_mod_eq (n + s - 1) s) as H.
  pose proof (Nat.mod_upper_bound (n + s - 1) s) as Hr. nia.
Qed.

Lemma ceil_div_tight (n s k : nat) : 0 < s -> k < (n + s - 1) / s -> k * s < n.
Proof.
  intros Hs Hk. pose proof (Nat.div_mod_eq (n + s - 1) s) as H.
  pose proof (Nat.mod_upper_bound (n + s - 1) s) as Hr. nia.
Qed.

Lemma concat_windows_upto {A} (s : nat) (l : list A) (m : nat) :
  concat (map (fun k => firstn s (skipn (k * s) l)) (seq 0 m)) = firstn (m * s) l.
Proof.
  induction m as [|m IH]; [reflexivity|].
  rewrite seq_S, map_app, concat_app, IH. simpl.
  rewrite app_nil_r, take_take_drop. f_equal. lia.
Qed.

Lemma concat_windows {A} (s : nat) (l : list A) :
  0 < s -> concat (windows s l) = l.
Proof.
  intros Hs. unfold windows. rewrite concat_windows_upto.
  apply firstn_all2. now apply ceil_div_covers.
Qed.

Lemma windows_nth {A} (s : nat) (l : list A) (k : nat) (b : list A) :
  0 < s ->
  nth_error (windows s l) k = Some b ->
  b = firstn s (skipn (k * s) l) /\ b <> [] /\ length b <= s /\
  (S k < length (windows s l) -> length b = s).
Proof.
  intros Hs Hk. unfold windows in *.
  rewrite length_map, length_seq.
  rewrite nth_error_map in Hk.
  rewrite nth_error_seq in Hk.
  destruct (Nat.ltb_spec k ((length l + s - 1) / s)) as [Hlt|];
    [|discriminate].
  simpl in Hk. injection Hk as <-.
  pose proof (ceil_div_tight (length l) s k Hs Hlt) as Hin.
  split; [reflexivity|]. split; [|split].
  - intros E. apply (f_equal (@length A)) in E.
    rewrite length_take, length_drop in E. simpl in E. lia.
  - rewrite length_take. lia.
  - intros Hnext. pose proof (ceil_div_tight (length l) s (S k) Hs Hnext).
    rewrite length_take, length_drop. lia.
Qed.

Lemma combine_app_same {A B} (l1 l2 : list A) (k1 k2 : list B) :
  length l1 = length k1 ->
  combine (l1 ++ l2) (k1 ++ k2) = combine l1 k1 ++ combine l2 k2.
Proof.
  revert k1. induction l1 as [|x l1 IH]; intros [|y k1] H; simpl in *;
    try discriminate; [reflexivity|].
  f_equal. apply IH. lia.
Qed.

Lemma combine_map_seq {A B} (f : nat -> A) (g : nat -> B) (l : list nat) :
  combine (map f l) (map g l) = map (fun k => (f k, g k)) l.
Proof. induction l as [|x l IH]; simpl; [reflexivity | now rewrite IH]. Qed.

(** Inserting the windows of the documents with the windows of the ids,
    one after the other, adds up to inserting all of them at once. *)
Lemma fold_added_windows (s : nat) (documents : list Document)
    (ids : list string) (i : Index) :
  0 < s ->
  length ids = length documents ->
  fold_left (fun acc b => Engine.added acc (fst b) (snd b))
            (combine (windows s documents) (windows s ids)) i
  = i ++ combine ids documents.
Proof.
  intros Hs Hlen. unfold windows. rewrite Hlen, combine_map_seq.
  assert (H : forall m,
    fold_left (fun acc b => Engine.added acc (fst b) (snd b))
      (map (fun k => (firstn s (skipn (k * s) documents),
                      firstn s (skipn (k * s) ids))) (seq 0 m)) i
    = i ++ combine (firstn (m * s) ids) (firstn (m * s) documents)).
  { induction m as [|m IH]; [simpl; now rewrite app_nil_r|].
    rewrite seq_S, map_app, fold_left_app, IH. simpl.
    unfold Engine.added. rewrite <- app_assoc. f_equal.
    rewrite <- combine_app_same.
    - rewrite !take_take_drop. now replace (m * s + s) with (s + m * s) by lia.
    - rewrite !length_take. lia. }
  rewrite H.
  rewrite !firstn_all2; [reflexivity | |].
  - now apply ceil_div_covers.
  - rewrite Hlen. now apply ceil_div_covers.
Qed.

(* ===================================================================== *)
(** ** Batched insertion *)
(* ===================================================================== *)

Lemma for_each_cons {A} (x : A) (xs : list A) (body : A -> M unit) :
  for_each (x :: xs) body = bind (body x) (fun _ => for_each xs body).
Proof. reflexivity. Qed.

Lemma insert_batch_run env (b : list Document * list string) (w : World) (i : Index) :
  vector_store w = Some i ->
  FAISSVectorStore.insert_batch env b w
  = let w1 := log (add_event b) w in
    match add_fault env i (fst b) (snd b) with
    | Some rest => (Raise (ExternalFailure OpEngineAdd), set_vector_store (Some rest) w1)
    | None => (Ret tt, set_vector_store (Some (Engine.added i (fst b) (snd b))) w1)
    end.
Proof.
  intros Hvs. destruct b as [batch batch_ids].
  unfold FAISSVectorStore.insert_batch, Engine.add_documents.
  unfold bind, get, modify, ret, raise. rewrite Hvs. simpl.
  destruct (add_fault env i batch batch_ids); reflexivity.
Qed.

(** All batches accepted: every one was added to what the store held,
    in order, and nothing else changed. *)
Lemma for_each_insert_ok env (bl : list (list Document * list string)) :
  forall w i,
    vector_store w = Some i ->
    inserts_ok env i bl = true ->
    for_each bl (FAISSVectorStore.insert_batch env) w
    = (Ret tt,
       mkWorld (ledger_file w)
               (Some (fold_left (fun acc b => Engine.added acc (fst b) (snd b)) bl i))
               (snapshot_dir w) (uuid_calls w)
               (trace w ++ map add_event bl)).
Proof.
  induction bl as [|[batch batch_ids] bl IH]; intros w i Hvs Hok.
  - simpl. unfold ret. rewrite app_nil_r, <- Hvs. now destruct w.
  - simpl in Hok.
    destruct (add_fault env i batch batch_ids) eqn:Ef; [discriminate|].
    rewrite for_each_cons. unfold bind at 1.
    rewrite (insert_batch_run env _ w i Hvs). simpl. rewrite Ef.
    rewrite (IH _ (Engine.added i batch batch_ids)); [|reflexivity|exact Hok].
    simpl. now rewrite <- app_assoc.
Qed.

(** A batch rejected: the loop stops there with the engine's exception;
    only engine inserts were called, the ledger and the snapshot
    directory are as before. *)
Lemma for_each_insert_fail env (bl : list (list Document * list string)) :
  forall w i,
    vector_store w = Some i ->
    inserts_ok env i bl = false ->
    exists k rest,
      k < length bl /\
      for_each bl (FAISSVectorStore.insert_batch env) w
      = (Raise (ExternalFailure OpEngineAdd),
         mkWorld (ledger_file w) (Some rest) (snapshot_dir w) (uuid_calls w)
                 (trace w ++ map add_event (firstn (S k) bl))).
Proof.
  induction bl as [|[batch batch_ids] bl IH]; intros w i Hvs Hok;
    [discriminate|].
  simpl in Hok. rewrite for_each_cons. unfold bind at 1.
  rewrite (insert_batch_run env _ w i Hvs). simpl.
  destruct (add_fault env i batch batch_ids) as [rest|] eqn:Ef.
  - exists 0, rest. split; [simpl; lia | reflexivity].
  - destruct (IH (set_vector_store (Some (Engine.added i batch batch_ids))
                    (log (add_event (batch, batch_ids)) w))
                 (Engine.added i batch batch_ids) eq_refl Hok)
      as [k [rest [Hk Hrun]]].
    exists (S k), rest. split; [simpl; lia|].
    rewrite Hrun. simpl. now rewrite <- app_assoc.
Qed.

Lemma no_save_among_adds (bl : list (list Document * list string)) :
  existsb is_save_event (map add_event bl) = false.
Proof. induction bl as [|b bl IH]; [reflexivity | exact IH]. Qed.

(** With as many ids as documents and a positive batch size, insert is
    the loop over the paired windows followed by one save. *)
Lemma add_documents_run env (documents : list Document) (batch_size : Z)
    (ids : list string) (w : World) :
  documents <> [] ->
  (0 < batch_size)%Z ->
  length ids = length documents ->
  FAISSVectorStore.add_documents env documents batch_size (Some ids) w
  = bind (for_each (combine (windows (Z.to_nat batch_size) documents)
                            (windows (Z.to_nat batch_size) ids))
                   (FAISSVectorStore.insert_batch env))
         (fun _ =>
            bind get (fun w' =>
              match vector_store w' with
              | Some vs => bind (Engine.save_local env vs) (fun _ => ret true)
              | None => ret false
              end)) w.
Proof.
  intros Hne Hpos Hlen. destruct documents as [|d ds]; [congruence|].
  unfold FAISSVectorStore.add_documents,
    DocumentLoaderService.batch_process_documents.
  rewrite bind_ret_l. rewrite Hlen, Nat.eqb_refl.
  change (negb true) with false. cbv iota.
  destruct (range0_windows (d :: ds) (length (d :: ds)) batch_size Hpos)
    as [starts [Hr Hw]].
  destruct (range0_windows ids (length (d :: ds)) batch_size Hpos)
    as [starts' [Hr' Hw']].
  rewrite Hr in Hr'. injection Hr' as <-.
  rewrite Hr. cbv beta iota. rewrite bind_ret_l. cbv beta iota.
  rewrite bind_ret_l.
  rewrite Hw, Hw'. unfold windows. rewrite Hlen. reflexivity.
Qed.

Lemma add_documents_none env (documents : list Document) (batch_size : Z) (w : World) :
  documents <> [] ->
  FAISSVectorStore.add_documents env documents batch_size None w
  = FAISSVectorStore.add_documents env documents batch_size
      (Some (ids_used env documents None w))
      (set_uuid_calls (uuid_calls w + length documents) w).
Proof.
  intros Hne. destruct documents as [|d ds]; [congruence|].
  unfold FAISSVectorStore.add_documents.
  unfold bind at 1. rewrite generate_ids_run. rewrite bind_ret_l.
  reflexivity.
Qed.

(** C3: for a non-empty chunk sequence (with a positive batch size and
    as many ids as chunks) the batches are the consecutive windows of
    [batch_size] chunks, in order, together making up the sequence; each
    is added by the engine to what the store already holds.  When every
    batch is accepted the store holds the old entries followed by all the
    new ones, and exactly one save follows, after the last insert; it
    writes the whole store.  When a batch is rejected insert raises the
    engine's error, no save was attempted and the snapshot directory is as
    before.  The ledger is never written. *)
Theorem add_documents_batched :
  forall env documents batch_size oids w i,
    documents <> [] ->
    (0 < batch_size)%Z ->
    length (ids_used env documents oids w) = length documents ->
    vector_store w = Some i ->
    let s := Z.to_nat batch_size in
    let ids := ids_used env documents oids w in
    let batches := windows s documents in
    let bl := combine batches (windows s ids) in
    let all := i ++ combine ids documents in
    let r := FAISSVectorStore.add_documents env documents batch_size oids w in
    DocumentLoaderService.batch_process_documents documents batch_size w
    = (Ret batches, w) /\
    concat batches = documents /\
    (forall k b,
        nth_error batches k = Some b ->
        b = firstn s (skipn (k * s) documents) /\ b <> [] /\ length b <= s /\
        (S k < length batches -> length b = s)) /\
    ledger_file (snd r) = ledger_file w /\
    (inserts_ok env i bl = true ->
       vector_store (snd r) = Some all /\
       new_events w (snd r) = map add_event bl ++ [EvSaveLocal all] /\
       (save_fault env all (snapshot_dir w) = None ->
          fst r = Ret true /\ snapshot_dir (snd r) = DirSaved all)) /\
    (inserts_ok env i bl = false ->
       fst r = Raise (ExternalFailure OpEngineAdd) /\
       snapshot_dir (snd r) = snapshot_dir w /\
       existsb is_save_event (new_events w (snd r)) = false).
Proof.
  intros env documents batch_size oids w i Hne Hpos Hlen Hvs s ids batches bl all r.
  assert (Hs : 0 < s) by (unfold s; lia).
  split.
  { unfold DocumentLoaderService.batch_process_documents.
    destruct (range0_windows documents (length documents) batch_size Hpos)
      as [starts [Hr Hw]].
    rewrite Hr, Hw. reflexivity. }
  split; [now apply concat_windows|].
  split; [intros k b Hk; now apply windows_nth|].
  split; [apply add_documents_keeps_ledger|].
  set (w1 := match oids with
             | Some _ => w
             | None => set_uuid_calls (uuid_calls w + length documents) w
             end).
  assert (Hr : r = FAISSVectorStore.add_documents env documents batch_size (Some ids) w1).
  { unfold r, ids, w1. destruct oids; [reflexivity|]. now apply add_documents_none. }
  assert (Hvs1 : vector_store w1 = Some i) by (unfold w1; now destruct oids).
  assert (Htr : trace w1 = trace w) by (unfold w1; now destruct oids).
  assert (Hsn : snapshot_dir w1 = snapshot_dir w) by (unfold w1; now destruct oids).
  rewrite (add_documents_run env documents batch_size ids w1 Hne Hpos Hlen) in Hr.
  fold s in Hr. fold batches in Hr. fold bl in Hr.
  split.
  - intros Hok.
    rewrite (bind_run _ _ _ _ _ (for_each_insert_ok env bl w1 i Hvs1 Hok)) in Hr.
    assert (Hfold : fold_left (fun acc b => Engine.added acc (fst b) (snd b)) bl i = all)
      by (unfold bl, batches, all; now apply fold_added_windows).
    rewrite Hfold in Hr.
    unfold bind at 1 in Hr. unfold get in Hr. cbn [vector_store] in Hr.
    unfold Engine.save_local, bind, modify, get, ret, raise in Hr.
    cbn [snapshot_dir log] in Hr. rewrite Hsn, Htr in Hr.
    destruct (save_fault env all (snapshot_dir w)) as [rest|] eqn:Esave;
      rewrite Hr; cbn [fst snd vector_store set_snapshot_dir trace snapshot_dir];
      (split; [reflexivity|]);
      (split; [unfold new_events; cbn [trace set_snapshot_dir log];
               rewrite <- app_assoc; now rewrite drop_app_length|]);
      intros Hnone; [discriminate | now split].
  - intros Hbad.
    destruct (for_each_insert_fail env bl w1 i Hvs1 Hbad) as [k [rest [Hk Hrun]]].
    rewrite (bind_raise _ _ _ _ _ Hrun) in Hr.
    rewrite Hr. cbn [fst snd snapshot_dir]. rewrite Hsn, Htr.
    split; [reflexivity|]. split; [reflexivity|].
    unfold new_events. cbn [trace]. rewrite drop_app_length.
    apply no_save_among_adds.
Qed.

Lemma add_documents_batched_witness :
  let w := Sample.world_of Sample.three_entries in
  let ids := ["i1"; "i2"; "i3"; "i4"; "i5"] in
  let r := FAISSVectorStore.add_documents Sample.quiet Sample.five_docs 2 (Some ids) w in
  DocumentLoaderService.batch_process_documents Sample.five_docs 2 w
  = (Ret [[Sample.doc "c1" "a.txt"; Sample.doc "c2" "a.txt"];
          [Sample.doc "c3" "a.txt"; Sample.doc "c4" "a.txt"];
          [Sample.doc "c5" "a.txt"]], w) /\
  fst r = Ret true /\
  snapshot_dir (snd r)
  = DirSaved (Sample.three_entries ++ combine ids Sample.five_docs).
Proof.
  destruct (add_documents_batched Sample.quiet Sample.five_docs 2
              (Some ["i1"; "i2"; "i3"; "i4"; "i5"])
              (Sample.world_of Sample.three_entries) Sample.three_entries)
    as [Hb [_ [_ [_ [Hok _]]]]];
    [discriminate | lia | reflexivity | reflexivity |].
  split; [exact Hb|].
  destruct (Hok eq_refl) as [_ [_ Hsave]].
  exact (Hsave eq_refl).
Defined.

(* ===================================================================== *)
(** ** The ledger as a list of lines *)
(* ===================================================================== *)

(** What follows the newline after [L] plays no part in a boundary that
    starts before it. *)
Lemma line_break_width_tail (c : ascii) (L T : string) :
  PyStr.line_break_width (String c (L +:+ String "010" T))
  = PyStr.line_break_width (String c (L +:+ String "010" "")).
Proof.
  destruct L as [|d [|e L']]; rewrite ?str_app_cons, ?str_app_nil_l;
    cbv beta iota delta [PyStr.line_break_width];
    split_byte_tests; simpl; try reflexivity;
    destruct T; reflexivity.
Qed.

(** The lines of a text cut after a newline: those before it, then those
    after it. *)
Lemma splitlines_from_app_newline (T : string) :
  forall L skip cur,
    skip <= S (String.length L) ->
    (0 < skip -> cur = "") ->
    PyStr.splitlines_from skip cur (L +:+ String "010" T)
    = PyStr.splitlines_from skip cur (L +:+ String "010" "")
        ++ PyStr.splitlines_from 0 "" T.
Proof.
  induction L as [|c L IH]; intros skip cur Hskip Hcur.
  - rewrite !str_app_nil_l. destruct skip as [|[|k]].
    + rewrite !splitlines_from_step, !line_break_width_newline. reflexivity.
    + rewrite !splitlines_from_skip. rewrite Hcur by lia. reflexivity.
    + simpl in Hskip. lia.
  - rewrite !str_app_cons. destruct skip as [|k].
    + rewrite !splitlines_from_step.
      pose proof (line_break_width_bound c L T) as Hb.
      rewrite (line_break_width_tail c L T) in *.
      destruct (PyStr.line_break_width (String c (L +:+ String "010" ""))) as [|k].
      * apply IH; lia.
      * simpl. f_equal. apply IH; [lia | reflexivity].
    + rewrite !splitlines_from_skip. simpl in Hskip.
      apply IH; [lia | intros _; apply Hcur; lia].
Qed.

(** Appending an identifier and a newline to a well-formed ledger adds
    that identifier as its last line and changes no other line. *)
Lemma splitlines_append_line (content p : string) :
  PyStr.newline_terminated content = true ->
  PyStr.no_line_break p = true ->
  PyStr.splitlines (content +:+ p +:+ String "010" "")
  = PyStr.splitlines content ++ [p].
Proof.
  intros Hc Hp. unfold PyStr.splitlines.
  assert (HT : PyStr.splitlines_from 0 "" (p +:+ String "010" "") = [p]).
  { rewrite (splitlines_from_line p Hp). now rewrite str_app_nil_l. }
  destruct (newline_terminated_cases content Hc) as [-> | [L ->]].
  - now rewrite str_app_nil_l.
  - rewrite str_app_assoc, str_app_cons, str_app_nil_l.
    rewrite splitlines_from_app_newline by lia. now rewrite HT.
Qed.

Lemma is_document_processed_run (doc_id : string) (w : World) :
  DocumentLoaderService._is_document_processed doc_id w
  = (Ret (is_recorded w doc_id), w).
Proof.
  unfold DocumentLoaderService._is_document_processed, is_recorded, bind, get, ret.
  destruct (ledger_file w); reflexivity.
Qed.

Lemma load_document_run env (p : string) (w : World) :
  DocumentLoaderService.load_document env p w
  = let suffix := path_suffix_lower env p in
    match DocumentLoaderService.SUPPORTED_LOADERS !! suffix with
    | None => (Raise (UnsupportedFileType suffix), w)
    | Some cls =>
        match loader_load env cls p with
        | None => (Raise (ExternalFailure OpLoaderLoad), log (EvLoaderLoad cls p) w)
        | Some documents =>
            (Ret (split_documents env
                    (map (DocumentLoaderService.stamp_metadata env p suffix) documents)),
             log (EvLoaderLoad cls p) w)
        end
    end.
Proof.
  unfold DocumentLoaderService.load_document. cbv zeta.
  destruct (DocumentLoaderService.SUPPORTED_LOADERS !! path_suffix_lower env p);
    [|reflexivity].
  unfold bind, modify. destruct (loader_load env l p); reflexivity.
Qed.

(** [_process_file] for either value of [skip_processed]. *)
Lemma process_file_run_any env (p : string) (skip_processed : bool) (w : World) :
  DocumentLoaderService._process_file env p skip_processed w
  = if skip_processed && is_recorded w p then (Ret [], w)
    else
      match DocumentLoaderService.load_document env p w with
      | (Ret chunks, w1) =>
          (Ret chunks,
           set_ledger_file
             (Some (default "" (ledger_file w) +:+ p +:+ String "010" "")) w1)
      | (Raise _, w1) => (Ret [], w1)
      end.
Proof.
  destruct skip_processed; [apply process_file_run|].
  unfold DocumentLoaderService._process_file.
  rewrite bind_ret_l. simpl andb. cbv iota.
  unfold try_except, bind at 1.
  pose proof (load_document_keeps_ledger env p w) as Hk.
  destruct (DocumentLoaderService.load_document env p w) as [[chunks|e] w1];
    simpl in Hk; [|reflexivity].
  unfold DocumentLoaderService._record_processed_document, bind, modify, ret.
  now rewrite Hk.
Qed.

Lemma loads_false_load_raises env (p : string) (w : World) :
  loads env p = false ->
  exists e w1,
    DocumentLoaderService.load_document env p w = (Raise e, w1) /\
    ledger_file w1 = ledger_file w /\ vector_store w1 = vector_store w /\
    snapshot_dir w1 = snapshot_dir w /\ uuid_calls w1 = uuid_calls w.
Proof.
  unfold loads. intros H. rewrite load_document_run. cbv zeta.
  destruct (DocumentLoaderService.SUPPORTED_LOADERS !! path_suffix_lower env p) as [cls|].
  - destruct (loader_load env cls p); [discriminate|].
    eexists. eexists. repeat split.
  - eexists. eexists. repeat split.
Qed.

Lemma loads_true_load_returns env (p : string) (w : World) :
  loads env p = true ->
  exists chunks cls,
    DocumentLoaderService.load_document env p w
    = (Ret chunks, log (EvLoaderLoad cls p) w).
Proof.
  unfold loads. intros H. rewrite load_document_run. cbv zeta.
  destruct (DocumentLoaderService.SUPPORTED_LOADERS !! path_suffix_lower env p) as [cls|];
    [|discriminate].
  destruct (loader_load env cls p); [|discriminate].
  eexists. eexists. reflexivity.
Qed.

(** The loader returns, and touches neither the store nor the snapshot
    directory; its only write to the ledger is one appended line. *)
Lemma process_file_returns env (p : string) (skip_processed : bool) (w : World) :
  exists chunks w',
    DocumentLoaderService._process_file env p skip_processed w = (Ret chunks, w') /\
    vector_store w' = vector_store w /\
    snapshot_dir w' = snapshot_dir w /\
    (ledger_file w' = ledger_file w \/
     ledger_file w' = Some (default "" (ledger_file w) +:+ p +:+ String "010" "")).
Proof.
  rewrite process_file_run_any.
  destruct (skip_processed && is_recorded w p).
  { eexists. eexists. repeat split. now left. }
  rewrite load_document_run. cbv zeta.
  destruct (DocumentLoaderService.SUPPORTED_LOADERS !! path_suffix_lower env p) as [cls|].
  - destruct (loader_load env cls p); eexists; eexists; repeat split;
      [now right | now left].
  - eexists. eexists. repeat split. now left.
Qed.

(** X1: recording an identifier and then asking for any identifier [q]:
    [q] is found exactly when it was found before or is the one just
    recorded (ledger well formed, identifier free of line boundaries). *)
Theorem record_then_lookup :
  forall p q w,
    ledger_wf w = true ->
    PyStr.no_line_break p = true ->
    let w' := snd (DocumentLoaderService._record_processed_document p w) in
    DocumentLoaderService._is_document_processed q w'
    = (Ret (is_recorded w q || String.eqb q p), w').
Proof.
  intros p q w Hwf Hp w'. rewrite is_document_processed_run. f_equal. f_equal.
  unfold is_recorded, w', DocumentLoaderService._record_processed_document, modify.
  simpl. unfold ledger_wf in Hwf.
  rewrite splitlines_append_line; [|destruct (ledger_file w); [exact Hwf|reflexivity] |exact Hp].
  unfold PyStr.str_in. rewrite existsb_app. simpl. rewrite orb_false_r.
  destruct (ledger_file w); reflexivity.
Qed.

Lemma record_then_lookup_witness :
  let w := Sample.world_of Sample.three_entries in
  let w' := snd (DocumentLoaderService._record_processed_document "docs/a.txt" w) in
  DocumentLoaderService._is_document_processed "docs/b.txt" w'
  = (Ret (is_recorded w "docs/b.txt" || String.eqb "docs/b.txt" "docs/a.txt"), w').
Proof.
  apply (record_then_lookup "docs/a.txt" "docs/b.txt"
           (Sample.world_of Sample.three_entries)); reflexivity.
Defined.




(* ===================================================================== *)
(** ** Ingesting a directory *)
(* ===================================================================== *)

Lemma is_recorded_ext (w w' : World) (p : string) :
  ledger_file w' = ledger_file w -> is_recorded w' p = is_recorded w p.
Proof. unfold is_recorded. now intros ->. Qed.

Lemma load_raises_loads_false env (p : string) (w w1 : World) (e : Exn) :
  DocumentLoaderService.load_document env p w = (Raise e, w1) ->
  loads env p = false.
Proof.
  intros H. destruct (loads env p) eqn:El; [|reflexivity].
  destruct (loads_true_load_returns env p w El) as [chunks [cls Hrun]].
  congruence.
Qed.

(** One file through [_process_file(p, True)]: the ledger stays well
    formed, nothing recorded is lost, and afterwards the file is recorded
    unless it does not load. *)
Lemma process_file_settles env (p : string) (w : World) :
  ledger_wf w = true ->
  PyStr.no_line_break p = true ->
  let w1 := snd (DocumentLoaderService._process_file env p true w) in
  ledger_wf w1 = true /\
  (forall q, is_recorded w q = true -> is_recorded w1 q = true) /\
  (is_recorded w1 p = true \/ loads env p = false).
Proof.
  intros Hwf Hp. cbv zeta. rewrite process_file_run.
  destruct (is_recorded w p) eqn:Er; [simpl; auto|].
  pose proof (load_document_keeps_ledger env p w) as Hk.
  destruct (DocumentLoaderService.load_document env p w) as [[chunks|e] w1] eqn:El;
    simpl in *.
  - assert (Hc : PyStr.newline_terminated (default "" (ledger_file w)) = true).
    { unfold ledger_wf in Hwf. destruct (ledger_file w); [exact Hwf|reflexivity]. }
    split; [|split].
    + unfold ledger_wf. simpl. rewrite <- str_app_assoc. apply newline_terminated_app.
    + intros q Hq. unfold is_recorded in *. simpl.
      destruct (ledger_file w) as [c|]; [|discriminate]. simpl in *.
      rewrite splitlines_append_line by assumption.
      unfold PyStr.str_in in *. now rewrite existsb_app, Hq.
    + left. unfold is_recorded. simpl. now apply recorded_after_append.
  - split; [|split].
    + unfold ledger_wf in *. now rewrite Hk.
    + intros q Hq. now rewrite (is_recorded_ext w w1 q Hk).
    + right. eapply load_raises_loads_false. exact El.
Qed.

Lemma process_entries_cons env (e : DirEntry) (rest : list DirEntry)
    (skip_processed : bool) (acc : list Document) (w : World) :
  DocumentLoaderService.process_entries env (e :: rest) skip_processed acc w
  = if entry_is_file e && DocumentLoaderService.has_supported_suffix env (entry_path e)
    then
      match DocumentLoaderService._process_file env (entry_path e) skip_processed w with
      | (Ret file_chunks, w1) =>
          DocumentLoaderService.process_entries env rest skip_processed
            (acc ++ file_chunks) w1
      | (Raise x, w1) => (Raise x, w1)
      end
    else DocumentLoaderService.process_entries env rest skip_processed acc w.
Proof.
  simpl.
  destruct (entry_is_file e && DocumentLoaderService.has_supported_suffix env (entry_path e));
    reflexivity.
Qed.



(** After a first pass every eligible entry is recorded or does not
    load; what was recorded stays recorded. *)
Lemma process_entries_settles env (listing : list DirEntry) :
  forall acc w,
    ledger_wf w = true ->
    Forall (fun e => PyStr.no_line_break (entry_path e) = true) listing ->
    let w' := snd (DocumentLoaderService.process_entries env listing true acc w) in
    ledger_wf w' = true /\
    (forall q, is_recorded w q = true -> is_recorded w' q = true) /\
    (forall e, In e listing ->
               is_recorded w' (entry_path e) = true \/ loads env (entry_path e) = false
               \/ entry_is_file e = false).
Proof.
  induction listing as [|e rest IH]; intros acc w Hwf Hall; cbv zeta.
  - simpl. split; [exact Hwf|]. split; [auto|]. intros e [].
  - inversion Hall as [|x xs Hp Hrest]; subst.
    rewrite process_entries_cons.
    destruct (entry_is_file e) eqn:Ef; simpl andb;
      [destruct (DocumentLoaderService.has_supported_suffix env (entry_path e)) eqn:Es|].
    + pose proof (process_file_settles env (entry_path e) w Hwf Hp) as Hst.
      cbv zeta in Hst.
      destruct (process_file_returns env (entry_path e) true w)
        as [chunks [w1 [Hrun _]]].
      rewrite Hrun in *. simpl in Hst. destruct Hst as [Hwf1 [Hmono1 Hset1]].
      destruct (IH (acc ++ chunks) w1 Hwf1 Hrest) as [Hwf' [Hmono Hset]].
      split; [exact Hwf'|]. split; [intros q Hq; auto|].
      intros e0 [<- | Hin]; [|auto].
      destruct Hset1 as [Hr | Hl]; [left; auto | right; left; exact Hl].
    + destruct (IH acc w Hwf Hrest) as [Hwf' [Hmono Hset]].
      split; [exact Hwf'|]. split; [exact Hmono|].
      intros e0 [<- | Hin]; [|auto].
      right. left. unfold loads.
      unfold DocumentLoaderService.has_supported_suffix in Es.
      destruct (DocumentLoaderService.SUPPORTED_LOADERS !! _); [discriminate|reflexivity].
    + destruct (IH acc w Hwf Hrest) as [Hwf' [Hmono Hset]].
      split; [exact Hwf'|]. split; [exact Hmono|].
      intros e0 [<- | Hin]; [|auto].
      right. right. exact Ef.
Qed.

(** A pass over entries that are all recorded, or do not load, or are no
    files, yields nothing and leaves the ledger as it is. *)
Lemma process_entries_all_settled env (listing : list DirEntry) :
  forall acc w,
    (forall e, In e listing ->
               is_recorded w (entry_path e) = true \/ loads env (entry_path e) = false
               \/ entry_is_file e = false) ->
    exists w',
      DocumentLoaderService.process_entries env listing true acc w = (Ret acc, w') /\
      ledger_file w' = ledger_file w.
Proof.
  induction listing as [|e rest IH]; intros acc w Hset.
  - exists w. split; reflexivity.
  - rewrite process_entries_cons.
    assert (Hrest : forall w1, ledger_file w1 = ledger_file w ->
              forall e0, In e0 rest ->
                is_recorded w1 (entry_path e0) = true \/ loads env (entry_path e0) = false
                \/ entry_is_file e0 = false).
    { intros w1 Hl e0 Hin. rewrite (is_recorded_ext w w1 _ Hl). apply Hset. now right. }
    destruct (entry_is_file e && DocumentLoaderService.has_supported_suffix env (entry_path e))
      eqn:El.
    + rewrite process_file_run.
      apply andb_true_iff in El as [Ef _].
      destruct (is_recorded w (entry_path e)) eqn:Er.
      * rewrite app_nil_r. apply IH. apply Hrest. reflexivity.
      * destruct (Hset e (or_introl eq_refl)) as [Hr | [Hl | Hf]]; [congruence | | congruence].
        destruct (loads_false_load_raises env (entry_path e) w Hl)
          as [x [w1 [Hrun [Hled _]]]].
        rewrite Hrun, app_nil_r.
        destruct (IH acc w1 (Hrest w1 Hled)) as [w' [Hrun' Hled']].
        exists w'. split; [exact Hrun' | congruence].
    + apply IH. apply Hrest. reflexivity.
Qed.

(** X5: ingesting a directory twice in a row with [skip_processed=True],
    the files unchanged in between: the second pass returns no chunk and
    writes nothing to the ledger. *)
Theorem process_directory_twice_yields_nothing :
  forall env listing w,
    ledger_wf w = true ->
    Forall (fun e => PyStr.no_line_break (entry_path e) = true) listing ->
    let w1 := snd (DocumentLoaderService._process_directory env listing true w) in
    exists w2,
      DocumentLoaderService._process_directory env listing true w1 = (Ret [], w2) /\
      ledger_file w2 = ledger_file w1.
Proof.
  intros env listing w Hwf Hall w1.
  unfold DocumentLoaderService._process_directory in *.
  destruct (process_entries_settles env listing [] w Hwf Hall) as [_ [_ Hset]].
  apply process_entries_all_settled. exact Hset.
Qed.

Lemma process_directory_twice_yields_nothing_witness :
  let listing := [mkDirEntry "docs" false; mkDirEntry "docs/a.txt" true;
                  mkDirEntry "docs/b.txt" true] in
  let w1 := snd (DocumentLoaderService._process_directory Sample.quiet listing true
                   (Sample.world_of Sample.three_entries)) in
  exists w2,
    DocumentLoaderService._process_directory Sample.quiet listing true w1 = (Ret [], w2) /\
    ledger_file w2 = ledger_file w1.
Proof.
  apply (process_directory_twice_yields_nothing Sample.quiet
           [mkDirEntry "docs" false; mkDirEntry "docs/a.txt" true;
            mkDirEntry "docs/b.txt" true]
           (Sample.world_of Sample.three_entries)).
  - reflexivity.
  - repeat constructor.
Defined.

(* ===================================================================== *)
(** ** Uploads *)
(* ===================================================================== *)










(* ===================================================================== *)
(** ** Maintenance of the store *)
(* ===================================================================== *)

Lemma delete_without_store env (ids : list string) (w : World) :
  vector_store w = None ->
  FAISSVectorStore.delete env ids w = (Ret false, w).
Proof.
  intros Hvs. destruct ids as [|x xs]; [reflexivity|].
  unfold FAISSVectorStore.delete, FAISSVectorStore.vector_store_delete,
    try_except, bind, get, raise, ret.
  now rewrite Hvs.
Qed.

Lemma delete_by_source_without_store env (source_paths : list string) (w : World) :
  vector_store w = None ->
  FAISSVectorStore.delete_by_source env source_paths w = (Ret false, w).
Proof.
  intros Hvs. destruct source_paths as [|x xs]; [reflexivity|].
  unfold FAISSVectorStore.delete_by_source, try_except, bind, get, raise, ret.
  now rewrite Hvs.
Qed.

Lemma delete_returns env (ids : list string) (w : World) :
  exists b w',
    FAISSVectorStore.delete env ids w = (Ret b, w') /\
    ledger_file w' = ledger_file w.
Proof.
  destruct (vector_store w) as [i|] eqn:Hvs.
  - destruct ids as [|x xs]; [exists false, w; now split|].
    rewrite (delete_run env (x :: xs) w i); [|discriminate|exact Hvs]. cbv zeta.
    destruct (delete_fault env i (x :: xs)); [eexists; eexists; now split|].
    destruct (save_fault env _ (snapshot_dir w)); eexists; eexists; now split.
  - rewrite (delete_without_store env ids w Hvs). exists false, w. now split.
Qed.

Lemma delete_by_source_returns env (source_paths : list string) (w : World) :
  exists b w',
    FAISSVectorStore.delete_by_source env source_paths w = (Ret b, w') /\
    ledger_file w' = ledger_file w.
Proof.
  destruct (vector_store w) as [i|] eqn:Hvs.
  - destruct source_paths as [|x xs]; [exists false, w; now split|].
    rewrite (delete_by_source_run env (x :: xs) w i); [|discriminate|exact Hvs].
    destruct (FAISSVectorStore.matching_ids (index_ids i) (x :: xs));
      [exists false, w; now split | apply delete_returns].
  - rewrite (delete_by_source_without_store env source_paths w Hvs).
    exists false, w. now split.
Qed.

(** A [delete_by_source] that answers true has removed from the store
    every entry whose id a listed path starts, kept the others, and saved
    the result. *)
Lemma delete_by_source_true env (source_paths : list string) (w w' : World) (i : Index) :
  vector_store w = Some i ->
  FAISSVectorStore.delete_by_source env source_paths w = (Ret true, w') ->
  let kept := List.filter (fun e => negb (id_of_sources source_paths (fst e))) i in
  vector_store w' = Some kept /\
  snapshot_dir w' = DirSaved kept /\
  ledger_file w' = ledger_file w.
Proof.
  intros Hvs Hrun kept.
  destruct source_paths as [|sp sps]; [discriminate|].
  rewrite (delete_by_source_run env (sp :: sps) w i) in Hrun; [|discriminate|exact Hvs].
  pose proof (removed_matching i (sp :: sps)) as Hrem. fold kept in Hrem.
  destruct (FAISSVectorStore.matching_ids (index_ids i) (sp :: sps)) as [|x xs];
    [discriminate|].
  rewrite (delete_run env (x :: xs) w i) in Hrun; [|discriminate|exact Hvs].
  cbv zeta in Hrun. rewrite Hrem in Hrun.
  destruct (delete_fault env i (x :: xs)); [discriminate|].
  destruct (save_fault env kept (snapshot_dir w)); [discriminate|].
  injection Hrun as <-. repeat split.
Qed.

Lemma clear_run env (w : World) :
  FAISSVectorStore.clear env w
  = let text := FAISSVectorStore.PLACEHOLDER_TEXT in
    let w1 := log (EvFromTexts [text]) w in
    if create_fault env [text]
    then (Raise (ExternalFailure OpFromTexts), w1)
    else
      let fresh := [(uuid4 env (uuid_calls w), mkDocument text ∅)] in
      let w2 := log (EvSaveLocal fresh)
                  (set_vector_store (Some fresh)
                     (set_uuid_calls (uuid_calls w + 1) w1)) in
      match save_fault env fresh (snapshot_dir w) with
      | Some rest => (Raise (ExternalFailure OpSaveLocal), set_snapshot_dir rest w2)
      | None => (Ret tt, set_snapshot_dir (DirSaved fresh) w2)
      end.
Proof.
  unfold FAISSVectorStore.clear, FAISSVectorStore.save, Engine.from_texts,
    Engine.save_local.
  unfold bind, modify, get, ret, raise. simpl.
  destruct (create_fault env [FAISSVectorStore.PLACEHOLDER_TEXT]); [reflexivity|].
  simpl. destruct (save_fault env _ (snapshot_dir w)); reflexivity.
Qed.

(** X9: [delete] and [delete_by_source] never raise, for any argument and
    any state of the engine, a missing store included, and neither ever
    writes the ledger: a source deleted from the index stays recorded as
    processed. *)
Theorem deletes_never_raise_nor_touch_ledger :
  forall env ids source_paths w,
    (exists b w',
        FAISSVectorStore.delete env ids w = (Ret b, w') /\
        ledger_file w' = ledger_file w) /\
    (exists b w',
        FAISSVectorStore.delete_by_source env source_paths w = (Ret b, w') /\
        ledger_file w' = ledger_file w).
Proof.
  intros. split; [apply delete_returns | apply delete_by_source_returns].
Qed.

(** X10: a [clear] that returns leaves a store of exactly one entry, the
    placeholder, saved as the snapshot, and the ledger as it was.  It is
    not atomic: when embedding the placeholder raises, the store and the
    snapshot are untouched; when the save raises, the store in memory is
    already the placeholder store while the snapshot is not. *)
Theorem clear_outcomes :
  forall env w,
    let fresh := [(uuid4 env (uuid_calls w),
                   mkDocument FAISSVectorStore.PLACEHOLDER_TEXT ∅)] in
    let r := FAISSVectorStore.clear env w in
    ledger_file (snd r) = ledger_file w /\
    match fst r with
    | Ret _ =>
        vector_store (snd r) = Some fresh /\ snapshot_dir (snd r) = DirSaved fresh
    | Raise (ExternalFailure OpSaveLocal) =>
        vector_store (snd r) = Some fresh /\
        save_fault env fresh (snapshot_dir w) = Some (snapshot_dir (snd r))
    | Raise _ =>
        vector_store (snd r) = vector_store w /\
        snapshot_dir (snd r) = snapshot_dir w
    end.
Proof.
  intros env w fresh r. unfold r. rewrite clear_run. cbv zeta.
  destruct (create_fault env [FAISSVectorStore.PLACEHOLDER_TEXT]); [now repeat split|].
  fold fresh.
  destruct (save_fault env fresh (snapshot_dir w)) eqn:Es; simpl; now repeat split.
Qed.





(* ===================================================================== *)
(** ** Insert, then delete or restart *)
(* ===================================================================== *)

Lemma bind_inv {A B} (m : M A) (k : A -> M B) (w w' : World) (b : B) :
  bind m k w = (Ret b, w') ->
  exists a w1, m w = (Ret a, w1) /\ k a w1 = (Ret b, w').
Proof.
  unfold bind. destruct (m w) as [[a|e] w1]; [|discriminate].
  intros H. now exists a, w1.
Qed.

Lemma prefix_app (a b : string) : String.prefix a (a +:+ b) = true.
Proof.
  induction a as [|c a IH]; [now destruct b|].
  rewrite str_app_cons. simpl. now destruct (ascii_dec c c).
Qed.

Lemma prefix_app_r (a b c : string) :
  String.prefix a b = true -> String.prefix a (b +:+ c) = true.
Proof.
  revert b. induction a as [|x a IH]; intros b H; [now destruct (b +:+ c)|].
  destruct b as [|y b]; [discriminate|].
  rewrite str_app_cons. simpl in *.
  destruct (ascii_dec x y); [now apply IH | discriminate].
Qed.

(** An insert that answers true has just saved the store it leaves. *)
Lemma add_documents_true_saved env (documents : list Document) (batch_size : Z)
    (ids : option (list string)) (w w' : World) :
  FAISSVectorStore.add_documents env documents batch_size ids w = (Ret true, w') ->
  exists i', vector_store w' = Some i' /\ snapshot_dir w' = DirSaved i'.
Proof.
  unfold FAISSVectorStore.add_documents.
  destruct documents as [|d ds]; [discriminate|]. intros H.
  apply bind_inv in H as [ids' [w1 [_ H]]].
  destruct (negb (length (d :: ds) =? length ids')); [discriminate|].
  apply bind_inv in H as [batches [w2 [_ H]]].
  apply bind_inv in H as [id_batches [w3 [_ H]]].
  apply bind_inv in H as [u [w4 [_ H]]].
  unfold bind at 1 in H. unfold get at 1 in H.
  destruct (vector_store w4) as [vs|] eqn:Hvs; [|discriminate].
  unfold Engine.save_local, bind, modify, get, ret, raise in H. simpl in H.
  destruct (save_fault env vs (snapshot_dir w4)); [discriminate|].
  injection H as <-. exists vs. split; [exact Hvs | reflexivity].
Qed.

(** With a positive batch size and as many ids as documents, an insert
    that answers true leaves the old entries followed by the new ones. *)
Lemma add_documents_true_store env (documents : list Document) (batch_size : Z)
    (ids : list string) (w w' : World) (i : Index) :
  documents <> [] ->
  (0 < batch_size)%Z ->
  length ids = length documents ->
  vector_store w = Some i ->
  FAISSVectorStore.add_documents env documents batch_size (Some ids) w = (Ret true, w') ->
  vector_store w' = Some (i ++ combine ids documents) /\
  ledger_file w' = ledger_file w.
Proof.
  intros Hne Hpos Hlen Hvs Hrun.
  pose proof (add_documents_keeps_ledger env documents batch_size (Some ids) w) as Hk.
  rewrite Hrun in Hk. simpl in Hk. split; [|exact Hk].
  rewrite (add_documents_run env documents batch_size ids w Hne Hpos Hlen) in Hrun.
  set (bl := combine (windows (Z.to_nat batch_size) documents)
                     (windows (Z.to_nat batch_size) ids)) in *.
  destruct (inserts_ok env i bl) eqn:Hok.
  - rewrite (bind_run _ _ _ _ _ (for_each_insert_ok env bl w i Hvs Hok)) in Hrun.
    unfold bl in Hrun.
    rewrite (fold_added_windows (Z.to_nat batch_size) documents ids i) in Hrun
      by (assumption || lia).
    unfold bind at 1 in Hrun. unfold get in Hrun. cbn [vector_store] in Hrun.
    unfold Engine.save_local, bind, modify, get, ret, raise in Hrun.
    cbn [snapshot_dir log] in Hrun.
    destruct (save_fault env _ (snapshot_dir w)); [discriminate|].
    injection Hrun as <-. reflexivity.
  - destruct (for_each_insert_fail env bl w i Hvs Hok) as [k [rest [_ Hfail]]].
    rewrite (bind_raise _ _ _ _ _ Hfail) in Hrun. discriminate.
Qed.

Lemma ids_used_length env (documents : list Document) (w : World) :
  length (ids_used env documents None w) = length documents.
Proof. unfold ids_used. rewrite length_map, length_combine, length_seq. lia. Qed.

(** The ids generated for documents of one source all start with that
    source and an underscore. *)
Lemma generated_ids_match_source env (documents : list Document) (p : string)
    (w : World) :
  Forall (fun d => metadata d !! "source" = Some p) documents ->
  forall e, In e (combine (ids_used env documents None w) documents) ->
            id_of_sources [p] (fst e) = true.
Proof.
  intros Hall [x d] Hin. apply in_combine_l in Hin. unfold ids_used in Hin.
  apply in_map_iff in Hin as [[doc k] [<- Hin]].
  apply in_combine_l in Hin. rewrite Forall_forall in Hall.
  apply list_elem_of_In in Hin.
  rewrite (Hall doc Hin). simpl. unfold PyStr.startswith.
  rewrite <- str_app_assoc, prefix_app. reflexivity.
Qed.

Lemma filter_none {A} (f : A -> bool) (l : list A) :
  (forall x, In x l -> f x = false) -> List.filter f l = [].
Proof.
  induction l as [|a l IH]; intros H; [reflexivity|].
  simpl. rewrite (H a (or_introl eq_refl)). apply IH.
  intros x Hx. apply H. now right.
Qed.

Lemma init_from_saved env (w : World) (i : Index) :
  snapshot_dir w = DirSaved i ->
  FAISSVectorStore.__init__ env w
  = (Ret tt, set_vector_store (Some i) (log EvLoadLocal w)).
Proof.
  intros Hs.
  unfold FAISSVectorStore.__init__, FAISSVectorStore._load_or_create_vector_store,
    Engine.load_local.
  unfold bind, try_except, modify, get, ret, raise. rewrite Hs. simpl.
  rewrite Hs. reflexivity.
Qed.

(** X13: chunks of one source inserted with generated ids are all found
    again by [delete_by_source] of that source: after the insert and the
    delete have both answered true, the store holds what it held before
    the insert, minus the entries whose id the source path starts. *)
Theorem insert_then_delete_by_source :
  forall env documents batch_size p w w1 w2 i,
    documents <> [] ->
    (0 < batch_size)%Z ->
    vector_store w = Some i ->
    Forall (fun d => metadata d !! "source" = Some p) documents ->
    FAISSVectorStore.add_documents env documents batch_size None w = (Ret true, w1) ->
    FAISSVectorStore.delete_by_source env [p] w1 = (Ret true, w2) ->
    vector_store w2
    = Some (List.filter (fun e => negb (id_of_sources [p] (fst e))) i).
Proof.
  intros env documents batch_size p w w1 w2 i Hne Hpos Hvs Hall Hadd Hdel.
  rewrite (add_documents_none env documents batch_size w Hne) in Hadd.
  apply (add_documents_true_store env documents batch_size _
           (set_uuid_calls (uuid_calls w + length documents) w) w1 i Hne Hpos
           (ids_used_length env documents w) Hvs) in Hadd as [Hvs1 _].
  destruct (delete_by_source_true env [p] w1 w2 _ Hvs1 Hdel) as [Hvs2 _].
  rewrite Hvs2, List.filter_app. f_equal.
  assert (Hnew : List.filter (fun e => negb (id_of_sources [p] (fst e)))
                   (combine (ids_used env documents None w) documents) = []).
  { apply filter_none. intros e He.
    now rewrite (generated_ids_match_source env documents p w Hall e He). }
  rewrite Hnew. apply app_nil_r.
Qed.

Lemma insert_then_delete_by_source_witness :
  let w := Sample.world_of Sample.three_entries in
  let w1 := snd (FAISSVectorStore.add_documents Sample.quiet Sample.five_docs 2 None w) in
  vector_store (snd (FAISSVectorStore.delete_by_source Sample.quiet ["a.txt"] w1))
  = Some (List.filter (fun e => negb (id_of_sources ["a.txt"] (fst e)))
            Sample.three_entries).
Proof.
  eapply (insert_then_delete_by_source Sample.quiet Sample.five_docs 2 "a.txt"
            (Sample.world_of Sample.three_entries) _ _ Sample.three_entries).
  - discriminate.
  - lia.
  - reflexivity.
  - repeat constructor.
  - reflexivity.
  - reflexivity.
Defined.

(** X14: an insert that answers true has saved exactly the store it
    leaves in memory, so that a process started afterwards on the same
    snapshot directory loads that very store, and does so without
    writing the snapshot. *)
Theorem insert_then_restart_reloads :
  forall env documents batch_size ids w w' env' w0,
    FAISSVectorStore.add_documents env documents batch_size ids w = (Ret true, w') ->
    snapshot_dir w0 = snapshot_dir w' ->
    exists w0',
      FAISSVectorStore.__init__ env' w0 = (Ret tt, w0') /\
      vector_store w0' = vector_store w' /\
      snapshot_dir w0' = snapshot_dir w' /\
      existsb is_save_event (new_events w0 w0') = false.
Proof.
  intros env documents batch_size ids w w' env' w0 Hadd Hsnap.
  destruct (add_documents_true_saved env documents batch_size ids w w' Hadd)
    as [i' [Hvs Hs]].
  rewrite Hs in Hsnap. rewrite (init_from_saved env' w0 i' Hsnap).
  eexists. split; [reflexivity|]. split; [now rewrite Hvs|].
  split; [simpl; congruence|].
  unfold new_events. simpl. now rewrite drop_app_length.
Qed.

Lemma insert_then_restart_reloads_witness :
  let w := Sample.world_of Sample.three_entries in
  let w' := snd (FAISSVectorStore.add_documents Sample.quiet Sample.five_docs 2 None w) in
  let w0 := {| ledger_file := None; vector_store := None;
               snapshot_dir := snapshot_dir w'; uuid_calls := 0; trace := [] |} in
  exists w0',
    FAISSVectorStore.__init__ Sample.disk_full w0 = (Ret tt, w0') /\
    vector_store w0' = vector_store w' /\
    snapshot_dir w0' = snapshot_dir w' /\
    existsb is_save_event (new_events w0 w0') = false.
Proof.
  eapply (insert_then_restart_reloads Sample.quiet Sample.five_docs 2 None
            (Sample.world_of Sample.three_entries)); reflexivity.
Defined.

(** X15: whenever [delete] or [delete_by_source] answers true, or [clear]
    returns, the snapshot directory holds exactly the store left in
    memory. *)
Theorem maintenance_success_means_saved :
  forall env w w',
    (forall ids,
        FAISSVectorStore.delete env ids w = (Ret true, w') ->
        exists i', vector_store w' = Some i' /\ snapshot_dir w' = DirSaved i') /\
    (forall source_paths,
        FAISSVectorStore.delete_by_source env source_paths w = (Ret true, w') ->
        exists i', vector_store w' = Some i' /\ snapshot_dir w' = DirSaved i') /\
    (FAISSVectorStore.clear env w = (Ret tt, w') ->
     exists i', vector_store w' = Some i' /\ snapshot_dir w' = DirSaved i').
Proof.
  intros env w w'.
  assert (Hdel : forall ids,
    FAISSVectorStore.delete env ids w = (Ret true, w') ->
    exists i', vector_store w' = Some i' /\ snapshot_dir w' = DirSaved i').
  { intros ids H. destruct (vector_store w) as [i|] eqn:Hvs.
    - destruct ids as [|x xs]; [discriminate|].
      rewrite (delete_run env (x :: xs) w i) in H; [|discriminate|exact Hvs].
      cbv zeta in H.
      destruct (delete_fault env i (x :: xs)); [discriminate|].
      destruct (save_fault env _ (snapshot_dir w)); [discriminate|].
      injection H as <-. eexists. split; reflexivity.
    - rewrite (delete_without_store env ids w Hvs) in H. discriminate. }
  split; [exact Hdel|]. split.
  - intros sps H. destruct (vector_store w) as [i|] eqn:Hvs.
    + destruct (delete_by_source_true env sps w w' i Hvs H) as [H1 [H2 _]].
      eexists. split; [exact H1 | exact H2].
    + rewrite (delete_by_source_without_store env sps w Hvs) in H. discriminate.
  - intros H. rewrite clear_run in H. cbv zeta in H.
    destruct (create_fault env [FAISSVectorStore.PLACEHOLDER_TEXT]); [discriminate|].
    destruct (save_fault env _ (snapshot_dir w)); [discriminate|].
    injection H as <-. eexists. split; reflexivity.
Qed.

(* ===================================================================== *)
(** ** Edge cases of insert and delete *)
(* ===================================================================== *)

Lemma add_documents_nonpositive_run env (documents : list Document) (batch_size : Z)
    (ids : list string) (w : World) (i : Index) :
  (batch_size <= 0)%Z ->
  documents <> [] ->
  length ids = length documents ->
  vector_store w = Some i ->
  FAISSVectorStore.add_documents env documents batch_size (Some ids) w
  = if (batch_size =? 0)%Z then (Raise RangeStepZero, w)
    else
      match save_fault env i (snapshot_dir w) with
      | Some rest =>
          (Raise (ExternalFailure OpSaveLocal),
           set_snapshot_dir rest (log (EvSaveLocal i) w))
      | None => (Ret true, set_snapshot_dir (DirSaved i) (log (EvSaveLocal i) w))
      end.
Proof.
  intros Hle Hne Hlen Hvs. destruct documents as [|d ds]; [congruence|].
  unfold FAISSVectorStore.add_documents,
    DocumentLoaderService.batch_process_documents.
  rewrite bind_ret_l. rewrite Hlen, Nat.eqb_refl.
  change (negb true) with false. cbv iota.
  unfold PyStr.range0.
  destruct (batch_size =? 0)%Z eqn:E0; [reflexivity|].
  destruct (batch_size <? 0)%Z eqn:E1;
    [|apply Z.eqb_neq in E0; apply Z.ltb_ge in E1; lia].
  rewrite bind_ret_l. cbv beta iota. rewrite bind_ret_l.
  simpl. unfold bind at 1. unfold ret at 1. unfold bind at 1. unfold get at 1.
  rewrite Hvs.
  unfold Engine.save_local, bind, modify, get, ret, raise. simpl.
  destruct (save_fault env i (snapshot_dir w)); reflexivity.
Qed.

(** X16: with a batch size of zero or less, insert adds nothing: the
    store in memory is as before and the engine's insert is never called.
    With zero the call raises the error of [range] and the world is
    unchanged; with a negative size no batch is formed, yet the unchanged
    store is saved and, the save working, the answer is true. *)
Theorem nonpositive_batch_size_inserts_nothing :
  forall env documents batch_size ids w i,
    (batch_size <= 0)%Z ->
    documents <> [] ->
    length ids = length documents ->
    vector_store w = Some i ->
    let r := FAISSVectorStore.add_documents env documents batch_size (Some ids) w in
    vector_store (snd r) = Some i /\
    existsb is_add_event (new_events w (snd r)) = false /\
    (if (batch_size =? 0)%Z then r = (Raise RangeStepZero, w)
     else new_events w (snd r) = [EvSaveLocal i] /\
          (save_fault env i (snapshot_dir w) = None ->
           fst r = Ret true /\ snapshot_dir (snd r) = DirSaved i)).
Proof.
  intros env documents batch_size ids w i Hle Hne Hlen Hvs r. unfold r.
  rewrite (add_documents_nonpositive_run env documents batch_size ids w i Hle Hne Hlen Hvs).
  destruct (batch_size =? 0)%Z.
  - split; [exact Hvs|]. split; [|reflexivity].
    unfold new_events. simpl. now rewrite drop_all.
  - destruct (save_fault env i (snapshot_dir w)) eqn:Es; simpl;
      (split; [exact Hvs|]);
      unfold new_events; simpl; rewrite drop_app_length;
      (split; [reflexivity|]); (split; [reflexivity|]);
      intros H; [discriminate | now split].
Qed.

Lemma nonpositive_batch_size_inserts_nothing_witness :
  let w := Sample.world_of Sample.three_entries in
  let r := FAISSVectorStore.add_documents Sample.quiet Sample.five_docs (-1)
             (Some ["i1"; "i2"; "i3"; "i4"; "i5"]) w in
  vector_store (snd r) = Some Sample.three_entries /\
  fst r = Ret true.
Proof.
  destruct (nonpositive_batch_size_inserts_nothing Sample.quiet Sample.five_docs (-1)
              ["i1"; "i2"; "i3"; "i4"; "i5"]
              (Sample.world_of Sample.three_entries) Sample.three_entries)
    as [Hvs [_ H]]; [lia | discriminate | reflexivity | reflexivity |].
  split; [exact Hvs|].
  simpl in H. destruct H as [_ H]. now destruct (H eq_refl).
Defined.

(** X17: [delete_by_source] selects by id prefix, so deleting the source
    [p] also removes the chunks of every source whose own path starts
    with [p] and an underscore: after a delete that answered true no id
    made of such a path, an underscore and anything is left. *)
Theorem delete_by_source_takes_extending_paths :
  forall env p q u w w' i kept,
    vector_store w = Some i ->
    PyStr.startswith q (p +:+ "_") = true ->
    FAISSVectorStore.delete_by_source env [p] w = (Ret true, w') ->
    vector_store w' = Some kept ->
    ~ In (q +:+ "_" +:+ u) (index_ids kept).
Proof.
  intros env p q u w w' i kept Hvs Hpre Hdel Hkept Hin.
  destruct (delete_by_source_true env [p] w w' i Hvs Hdel) as [Hvs' _].
  rewrite Hvs' in Hkept. injection Hkept as <-.
  unfold index_ids in Hin. apply in_map_iff in Hin as [e [He Hin]].
  apply filter_In in Hin as [_ Hneg]. rewrite He in Hneg.
  unfold id_of_sources, PyStr.startswith in *. simpl in Hneg.
  rewrite (prefix_app_r _ _ _ Hpre) in Hneg. discriminate.
Qed.

Lemma delete_by_source_takes_extending_paths_witness :
  ~ In ("docs/report_final.txt" +:+ "_" +:+ "1")
       (index_ids [("docs/other.txt_1", Sample.doc "o" "docs/other.txt")]).
Proof.
  eapply (delete_by_source_takes_extending_paths Sample.quiet "docs/report"
            "docs/report_final.txt" "1"
            (Sample.world_of
               [("docs/report_1", Sample.doc "r" "docs/report");
                ("docs/report_final.txt_1", Sample.doc "f" "docs/report_final.txt");
                ("docs/other.txt_1", Sample.doc "o" "docs/other.txt")]));
    reflexivity.
Defined.

(* ===================================================================== *)
(** ** Conversation history *)
(* ===================================================================== *)






(* ===================================================================== *)
(** ** From upload to deletion *)
(* ===================================================================== *)





(* ===================================================================== *)
(** ** The answer of the agent *)
(* ===================================================================== *)

(** X21: the answer is the text of the last AI message of the result,
    whatever messages of other kinds come after it; a result with no AI
    message at all gives the fixed apology. *)
Theorem extract_answer_takes_last_ai_message :
  forall before after text,
    Forall (fun m => m = FAISSConversationalRAGChain.OtherMessage) after ->
    FAISSConversationalRAGChain.extract_answer
      (FAISSConversationalRAGChain.WithMessages
         (before ++ FAISSConversationalRAGChain.AIMessage
                      (FAISSConversationalRAGChain.CText text) :: after))
    = text /\
    FAISSConversationalRAGChain.extract_answer
      (FAISSConversationalRAGChain.WithMessages after)
    = "Unable to generate an answer.".
Proof.
  intros before after text Hafter.
  assert (Hnone : flat_map (fun m => match m with
                                     | FAISSConversationalRAGChain.AIMessage c => [c]
                                     | FAISSConversationalRAGChain.OtherMessage => []
                                     end) after = []).
  { induction Hafter as [|m l Hm _ IH]; [reflexivity|]. subst m. exact IH. }
  unfold FAISSConversationalRAGChain.extract_answer,
    FAISSConversationalRAGChain.last_ai_content.
  split.
  - rewrite flat_map_app. simpl. rewrite Hnone, map_app. simpl.
    now rewrite last_last.
  - now rewrite Hnone.
Qed.

Lemma extract_answer_takes_last_ai_message_witness :
  FAISSConversationalRAGChain.extract_answer
    (FAISSConversationalRAGChain.WithMessages
       ([FAISSConversationalRAGChain.AIMessage (FAISSConversationalRAGChain.CText "draft")]
          ++ FAISSConversationalRAGChain.AIMessage
               (FAISSConversationalRAGChain.CText "final")
          :: [FAISSConversationalRAGChain.OtherMessage]))
  = "final".
Proof.
  apply (extract_answer_takes_last_ai_message
           [FAISSConversationalRAGChain.AIMessage (FAISSConversationalRAGChain.CText "draft")]
           [FAISSConversationalRAGChain.OtherMessage] "final").
  repeat constructor.
Defined.
